(** * ThumbnailGeneration.py: a shallow embedding and its specification

    The script resets a [thumbnails] directory below a fixed video
    directory, lists the [*.mp4] and [*.mov] entries of the video
    directory, and runs [ffmpeg] once per entry to extract one frame.

    The embedding follows the script function by function.  The file
    system is a tree, the console and the calls made to the operating
    system are an event list, and Python exceptions are an explicit
    result.  What the script cannot decide itself (what [ffmpeg] does,
    whether the host refuses a deletion, a creation or a [stat], what
    the console can show) is a [Host] record that every definition takes
    as a parameter.  The library calls follow CPython 3.8 to 3.12. *)

From Stdlib Require Import List String Ascii ZArith NArith Bool Arith Lia.
From Stdlib.Strings Require Import Byte.
From Stdlib Require Import DecimalString.
Import ListNotations.

Local Open Scope string_scope.
Local Open Scope list_scope.

Set Warnings "-register-all".

(** ** Strings *)

(** A Python [str] is kept as the [string] of its UTF-8 bytes; an
    f-string is the concatenation of its parts. *)
Definition fstr (parts : list string) : string := String.concat "" parts.

Definition LF : string := String "010"%char EmptyString.

(** [str(n)] for a natural number, as [len(...)] is printed. *)
Definition str_nat (n : nat) : string := NilEmpty.string_of_uint (Nat.to_uint n).

(** [name.rfind('.')]: the index of the last dot, [None] for Python's -1. *)
Fixpoint rfind_dot (s : string) : option nat :=
  match s with
  | EmptyString => None
  | String c s' =>
      match rfind_dot s' with
      | Some i => Some (S i)
      | None => if Ascii.eqb c "."%char then Some 0 else None
      end
  end.

(** [f] holds of [n] or of one of its proper suffixes. *)
Fixpoint any_suffix (f : string -> bool) (n : string) : bool :=
  f n ||
  match n with
  | EmptyString => false
  | String _ n' => any_suffix f n'
  end.

(** [fnmatch] for the patterns the script uses: [*] matches any run of
    characters, every other character matches itself, and the whole name
    must be consumed.  Matching compares characters exactly (the POSIX
    flavour of pathlib; the script's path is a POSIX path). *)
Fixpoint fnmatch (pat name : string) : bool :=
  match pat with
  | EmptyString => match name with EmptyString => true | _ => false end
  | String p pat' =>
      if Ascii.eqb p "*"%char then any_suffix (fnmatch pat') name
      else
        match name with
        | EmptyString => false
        | String c name' => Ascii.eqb p c && fnmatch pat' name'
        end
  end.

(** A pattern without [*] is compared with the name as it is. *)
Fixpoint literal (pat : string) : bool :=
  match pat with
  | EmptyString => true
  | String p pat' => negb (Ascii.eqb p "*"%char) && literal pat'
  end.

(** [s.endswith(suffix)], used to state what the glob patterns accept. *)
Definition ends_with (suffix s : string) : Prop :=
  exists front : string, s = (front ++ suffix)%string.

(** ** Bytes and UTF-8 *)

Definition bytes := list byte.

Definition in_range (lo hi : N) (b : byte) : bool :=
  (lo <=? Byte.to_N b)%N && (Byte.to_N b <=? hi)%N.

Definition continuation (b : byte) : bool := in_range 128 191 b.

(** Well-formed UTF-8 (the Unicode standard's table of byte sequences:
    no overlong forms, no surrogates, nothing above U+10FFFF), which is
    what the strict [utf-8] codec of [bytes.decode()] accepts. *)
Fixpoint utf8_valid (bs : bytes) : bool :=
  match bs with
  | [] => true
  | b0 :: r0 =>
      if in_range 0 127 b0 then utf8_valid r0
      else if in_range 194 223 b0 then
        match r0 with
        | b1 :: r1 => continuation b1 && utf8_valid r1
        | _ => false
        end
      else if in_range 224 239 b0 then
        match r0 with
        | b1 :: b2 :: r2 =>
            (if in_range 224 224 b0 then in_range 160 191 b1
             else if in_range 237 237 b0 then in_range 128 159 b1
             else continuation b1)
            && continuation b2 && utf8_valid r2
        | _ => false
        end
      else if in_range 240 244 b0 then
        match r0 with
        | b1 :: b2 :: b3 :: r3 =>
            (if in_range 240 240 b0 then in_range 144 191 b1
             else if in_range 244 244 b0 then in_range 128 143 b1
             else continuation b1)
            && continuation b2 && continuation b3 && utf8_valid r3
        | _ => false
        end
      else false
  end.

(** ** Paths and the file system *)

(** An absolute path is the list of its components below the root. *)
Definition path := list string.

(** [a / name] *)
Definition joinpath (p : path) (name : string) : path := p ++ [name].

(** [str(path)] *)
Definition Path_str (p : path) : string :=
  match p with
  | [] => "/"
  | _ => fstr (map (fun c => ("/" ++ c)%string) p)
  end.

(** [path.name]: the final component. *)
Definition Path_name (p : path) : string := last p "".

(** [path.stem]: the final component without its suffix,
    [name[:i] if 0 < i < len(name) - 1 else name] with [i = name.rfind('.')]. *)
Definition Path_stem (p : path) : string :=
  let name := Path_name p in
  match rfind_dot name with
  | Some i =>
      if ((0 <? i) && (i <? String.length name - 1))%nat
      then substring 0 i name
      else name
  | None => name
  end.

(** A directory lists its entries in the order the file system
    enumerates them. *)
Inductive node : Type :=
| File (data : bytes)
| Dir (children : list (string * node)).

Fixpoint assoc (name : string) (children : list (string * node)) : option node :=
  match children with
  | [] => None
  | (c, n) :: rest => if String.eqb name c then Some n else assoc name rest
  end.

Fixpoint lookup (p : path) (n : node) : option node :=
  match p with
  | [] => Some n
  | c :: p' =>
      match n with
      | Dir children =>
          match assoc c children with
          | Some n' => lookup p' n'
          | None => None
          end
      | File _ => None
      end
  end.

(** Set ([Some]) or remove ([None]) the entry [name] of a directory: an
    entry that is replaced keeps its place, a new one goes to the end. *)
Fixpoint set_child (name : string) (v : option node)
  (children : list (string * node)) : list (string * node) :=
  match children with
  | [] => match v with Some n => [(name, n)] | None => [] end
  | (c, n0) :: rest =>
      if String.eqb name c
      then match v with
           | Some n => (c, n) :: rest
           | None => set_child name None rest
           end
      else (c, n0) :: set_child name v rest
  end.

(** Set or remove what is at path [p]; a path that cannot be reached
    leaves the tree as it is. *)
Fixpoint update (p : path) (v : option node) (n : node) : node :=
  match p with
  | [] => n
  | c :: p' =>
      match n with
      | File _ => n
      | Dir children =>
          match p' with
          | [] => Dir (set_child c v children)
          | _ =>
              match assoc c children with
              | Some n' => Dir (set_child c (Some (update p' v n')) children)
              | None => n
              end
          end
      end
  end.

Definition parent (p : path) : path := removelast p.

(** ** Exceptions, events and the host *)

Inductive oserror : Type :=
| FileNotFoundError
| FileExistsError
| NotADirectoryError
| PermissionError
| BrokenPipeError.

(** The exceptions the script can meet; all are subclasses of
    [Exception]. *)
Inductive exn : Type :=
| OSError (kind : oserror) (msg : string)
| CalledProcessError (returncode : Z) (cmd : list string) (output stderr : bytes)
| UnicodeDecodeError (msg : string)
| UnicodeEncodeError (msg : string).

(** A computation returns, raises, or never comes back ([Blocked]: the
    script waits for the external program without a timeout). *)
Inductive result (A : Type) : Type :=
| Ok (a : A)
| Raise (e : exn)
| Blocked.
Arguments Ok {A} a.
Arguments Raise {A} e.
Arguments Blocked {A}.

(** What a run does to the outside, in order. *)
Inductive event : Type :=
| EvPrint (line : string)
| EvRmtree (p : path)
| EvMkdir (p : path)
| EvSpawn (argv : list string).

(** What [subprocess.run] finds: the process ran and exited, leaving the
    file system as [fs'], or it could not be started at all, or it never
    exits. *)
Inductive proc_result : Type :=
| Exited (returncode : Z) (stdout stderr : bytes) (fs' : node)
| SpawnFailed (msg : string)
| Hangs.

(** The behaviour of the machine the script runs on. *)
Record Host : Type := {
  (** the external program, given its argument vector and the file system *)
  run_process : list string -> node -> proc_result;
  (** whether deleting the directory at a path fails: the message of the
      error and the entries left behind *)
  rmtree_fault : path -> list (string * node) -> option (string * list (string * node));
  (** whether creating a directory at a path is refused *)
  mkdir_fault : path -> node -> option string;
  (** whether [stat] on a path is refused (a [PermissionError]) *)
  stat_fault : path -> node -> option string;
  (** whether standard output is closed (every write is a
      [BrokenPipeError]) *)
  stdout_closed : bool;
  (** the bytes of the characters the encoding of standard output
      lacks; ASCII is never among them *)
  unencodable : ascii -> bool;
  (** the text of the [UnicodeEncodeError] for a line *)
  codec_message : string -> string
}.

(** [str(e)].  No [CalledProcessError] is ever printed this way by the
    script (its own [except] clause comes first, and the cleanup starts
    no process); its text is given without the command. *)
Definition str_exn (e : exn) : string :=
  match e with
  | OSError _ msg => msg
  | UnicodeDecodeError msg => msg
  | UnicodeEncodeError msg => msg
  | CalledProcessError _ _ _ _ => "Command returned non-zero exit status."
  end.

(** The text of an [OSError] the library raises itself,
    [[Errno n] reason: 'path']. *)
Definition errno_msg (errno : nat) (p : path) : string :=
  fstr [ "[Errno "; str_nat errno; "] ";
         match errno with
         | 2 => "No such file or directory"
         | 17 => "File exists"
         | 20 => "Not a directory"
         | _ => "Error"
         end;
         ": '"; Path_str p; "'" ].

(** The text of the [NotADirectoryError] of [shutil.rmtree]: the error
    carries the [Path] object itself, which is shown by its [repr] (as
    written here for a path without quotes or backslashes). *)
Definition rmtree_not_a_directory_msg (p : path) : string :=
  fstr ["[Errno 20] Not a directory: PosixPath('"; Path_str p; "')"].

(** ** The monad of the script: state, events, exceptions *)

Definition M (A : Type) : Type := node -> result A * node * list event.

Definition ret {A} (a : A) : M A := fun s => (Ok a, s, []).

Definition raise {A} (e : exn) : M A := fun s => (Raise e, s, []).

Definition bind {A B} (m : M A) (k : A -> M B) : M B := fun s =>
  match m s with
  | (Ok a, s1, t1) => let '(r, s2, t2) := k a s1 in (r, s2, t1 ++ t2)
  | (Raise e, s1, t1) => (Raise e, s1, t1)
  | (Blocked, s1, t1) => (Blocked, s1, t1)
  end.

(** [try: body except Exception as e: handler e].  An exception raised
    by the handler itself is not caught. *)
Definition try_except {A} (body : M A) (handler : exn -> M A) : M A := fun s =>
  match body s with
  | (Ok a, s1, t1) => (Ok a, s1, t1)
  | (Raise e, s1, t1) => let '(r, s2, t2) := handler e s1 in (r, s2, t1 ++ t2)
  | (Blocked, s1, t1) => (Blocked, s1, t1)
  end.

Notation "x <- m ;; k" := (bind m (fun x => k))
  (at level 61, m at next level, right associativity).
Notation "m ;; k" := (bind m (fun _ => k))
  (at level 61, right associativity).

Definition emit (e : event) : M unit := fun s => (Ok tt, s, [e]).

Fixpoint all_chars (f : ascii -> bool) (s : string) : bool :=
  match s with
  | EmptyString => true
  | String c s' => f c && all_chars f s'
  end.

(** [for x in xs: body x] *)
Fixpoint for_each {A} (xs : list A) (body : A -> M unit) : M unit :=
  match xs with
  | [] => ret tt
  | x :: xs' => body x ;; for_each xs' body
  end.

Definition res {A} (o : result A * node * list event) : result A := fst (fst o).
Definition fs_after {A} (o : result A * node * list event) : node := snd (fst o).
Definition events {A} (o : result A * node * list event) : list event := snd o.

(** ** The library calls the script makes *)

Section Script.

Variable host : Host.

(** Standard output can show a character when it is ASCII or its
    encoding has it. *)
Definition encodes (c : ascii) : bool :=
  (nat_of_ascii c <? 128)%nat || negb (unencodable host c).

(** [print(line)]: raises when standard output is closed or cannot
    encode the line, and then writes nothing. *)
Definition print (line : string) : M unit := fun s =>
  if stdout_closed host
  then (Raise (OSError BrokenPipeError "[Errno 32] Broken pipe"), s, [])
  else if all_chars encodes line
  then (Ok tt, s, [EvPrint line])
  else (Raise (UnicodeEncodeError (codec_message host line)), s, []).

(** [path.exists()]: a [stat] that is refused is raised again, a path
    that is not there is [False]. *)
Definition Path_exists (p : path) : M bool := fun s =>
  match stat_fault host p s with
  | Some msg => (Raise (OSError PermissionError msg), s, [])
  | None => (Ok (match lookup p s with Some _ => true | None => false end), s, [])
  end.

(** [path.is_dir()] *)
Definition Path_is_dir (p : path) : M bool := fun s =>
  match stat_fault host p s with
  | Some msg => (Raise (OSError PermissionError msg), s, [])
  | None =>
      (Ok (match lookup p s with Some (Dir _) => true | _ => false end), s, [])
  end.

(** [shutil.rmtree(path)]: removes the directory and everything below
    it; raises when there is nothing at the path, when what is there is
    not a directory, or when the host makes the deletion fail, in which
    case part of the directory may remain. *)
Definition shutil_rmtree (p : path) : M unit := fun s =>
  match lookup p s with
  | None => (Raise (OSError FileNotFoundError (errno_msg 2 p)), s, [EvRmtree p])
  | Some (File _) =>
      (Raise (OSError NotADirectoryError (rmtree_not_a_directory_msg p)), s,
       [EvRmtree p])
  | Some (Dir children) =>
      match rmtree_fault host p children with
      | None => (Ok tt, update p None s, [EvRmtree p])
      | Some (msg, remaining) =>
          (Raise (OSError PermissionError msg),
           update p (Some (Dir remaining)) s, [EvRmtree p])
      end
  end.

(** [os.mkdir(path)]: the host may refuse it whatever is at the path. *)
Definition os_mkdir (p : path) : M unit := fun s =>
  match mkdir_fault host p s with
  | Some msg => (Raise (OSError PermissionError msg), s, [EvMkdir p])
  | None =>
      match lookup p s with
      | Some _ => (Raise (OSError FileExistsError (errno_msg 17 p)), s, [EvMkdir p])
      | None =>
          match lookup (parent p) s with
          | None =>
              (Raise (OSError FileNotFoundError (errno_msg 2 p)), s, [EvMkdir p])
          | Some (File _) =>
              (Raise (OSError NotADirectoryError (errno_msg 20 p)), s, [EvMkdir p])
          | Some (Dir _) => (Ok tt, update p (Some (Dir [])) s, [EvMkdir p])
          end
      end
  end.

(** [path.mkdir(exist_ok=True)] as pathlib writes it: a missing parent
    is raised again ([parents] is [False]); any other [OSError] is
    swallowed only when the path is a directory. *)
Definition Path_mkdir_exist_ok (p : path) : M unit :=
  try_except (os_mkdir p) (fun e =>
    match e with
    | OSError FileNotFoundError _ => raise e
    | OSError _ _ =>
        d <- Path_is_dir p ;;
        if d then ret tt else raise e
    | _ => raise e
    end).

(** The entries of a directory whose name matches a pattern of one
    component, files and directories alike, in enumeration order. *)
Definition glob (p : path) (pattern : string) (s : node) : list path :=
  match lookup p s with
  | Some (Dir children) =>
      map (joinpath p) (filter (fnmatch pattern) (map fst children))
  | _ => []
  end.

(** [list(path.glob(pattern))]: pathlib asks [is_dir] first and yields
    nothing for what is not a directory. *)
Definition Path_glob (p : path) (pattern : string) : M (list path) :=
  d <- Path_is_dir p ;;
  if d : bool then (fun s => (Ok (glob p pattern s), s, [])) else ret [].

(** [subprocess.run(cmd, check=True, capture_output=True)] *)
Definition subprocess_run (cmd : list string) : M unit := fun s =>
  match run_process host cmd s with
  | SpawnFailed msg => (Raise (OSError FileNotFoundError msg), s, [EvSpawn cmd])
  | Hangs => (Blocked, s, [EvSpawn cmd])
  | Exited returncode stdout stderr s' =>
      if (returncode =? 0)%Z
      then (Ok tt, s', [EvSpawn cmd])
      else (Raise (CalledProcessError returncode cmd stdout stderr), s',
            [EvSpawn cmd])
  end.

(** [b.decode()] *)
Definition bytes_decode (b : bytes) : M string :=
  if utf8_valid b
  then ret (string_of_list_byte b)
  else raise (UnicodeDecodeError "'utf-8' codec can't decode bytes").

(** ** The script *)

Definition cleanup_thumbnails (output_dir : path) : M unit :=
  try_except
    (e <- Path_exists output_dir ;;
     if e : bool then
       print (fstr [LF; "🗑️  Cleaning up old thumbnails directory: ";
                    Path_str output_dir]) ;;
       shutil_rmtree output_dir ;;
       print "✅ Old thumbnails removed"
     else ret tt)
    (fun e => print (fstr ["❌ Error cleaning up thumbnails: "; str_exn e])).

Definition thumbnail_name (video_path : path) : string :=
  fstr [Path_stem video_path; "_thumbnail.jpg"].

Definition thumbnail_path (video_path output_dir : path) : path :=
  joinpath output_dir (thumbnail_name video_path).

Definition cmd (video_path output_dir : path) (timestamp : string) : list string :=
  [ "ffmpeg";
    "-i"; Path_str video_path;
    "-ss"; timestamp;
    "-vframes"; "1";
    "-vf"; "scale=1920:1080";
    "-q:v"; "2";
    Path_str (thumbnail_path video_path output_dir) ].

Definition default_timestamp : string := "00:00:05".

Definition generate_thumbnail (video_path output_dir : path)
  (timestamp : option string) : M unit :=
  let timestamp := match timestamp with Some t => t | None => default_timestamp end in
  try_except
    (print (fstr [LF; "Processing "; Path_name video_path; "..."]) ;;
     subprocess_run (cmd video_path output_dir timestamp) ;;
     print (fstr ["✅ Generated thumbnail: ";
                  Path_str (thumbnail_path video_path output_dir)]))
    (fun e =>
       match e with
       | CalledProcessError _ _ _ stderr =>
           print (fstr ["❌ Error processing "; Path_name video_path; ":"]) ;;
           text <- bytes_decode stderr ;;
           print text
       | _ =>
           print (fstr ["❌ Unexpected error for "; Path_name video_path; ":"]) ;;
           print (str_exn e)
       end).

Definition video_dir : path := ["Users"; "Shared"; "Aerial Local"; "Additional Videos"].

Definition output_dir : path := joinpath video_dir "thumbnails".

Definition main : M unit :=
  cleanup_thumbnails output_dir ;;
  Path_mkdir_exist_ok output_dir ;;
  mp4 <- Path_glob video_dir "*.mp4" ;;
  mov <- Path_glob video_dir "*.mov" ;;
  let video_files := mp4 ++ mov in
  match video_files with
  | [] => print "No video files found in directory!"
  | _ =>
      print (fstr [LF; "Found "; str_nat (List.length video_files); " video files"]) ;;
      print (fstr ["Saving thumbnails to: "; Path_str output_dir]) ;;
      for_each video_files
        (fun video_path => generate_thumbnail video_path output_dir None) ;;
      print (fstr [LF; "✨ Thumbnail generation complete!"]) ;;
      print (fstr ["Generated "; str_nat (List.length video_files);
                   " thumbnails in: "; Path_str output_dir])
  end.

(** The exit status of the interpreter: 0 when [main] returns, 1 when an
    exception leaves it, none when the run never ends. *)
Definition exit_status (r : result unit) : option Z :=
  match r with Ok _ => Some 0%Z | Raise _ => Some 1%Z | Blocked => None end.

End Script.

(** ** Observations on a run *)

(** The argument vectors of the processes a run started, in order. *)
Fixpoint spawned (t : list event) : list (list string) :=
  match t with
  | [] => []
  | EvSpawn argv :: t' => argv :: spawned t'
  | _ :: t' => spawned t'
  end.

(** The lines a run printed, in order. *)
Fixpoint printed (t : list event) : list string :=
  match t with
  | [] => []
  | EvPrint line :: t' => line :: printed t'
  | _ :: t' => printed t'
  end.

(** The script's [video_files] on a file system. *)
Definition video_files (s : node) : list path :=
  glob video_dir "*.mp4" s ++ glob video_dir "*.mov" s.

(** The first two statements of [main]: the workspace reset. *)
Definition reset (host : Host) : M unit :=
  cleanup_thumbnails host output_dir ;;
  Path_mkdir_exist_ok host output_dir.

(** The loop of [main]. *)
Definition batch (host : Host) (files : list path) : M unit :=
  for_each files
    (fun video_path => generate_thumbnail host video_path output_dir None).

(** What [main] does with the list of candidates: the end of its body. *)
Definition batch_stage (host : Host) (video_files : list path) : M unit :=
  match video_files with
  | [] => print host "No video files found in directory!"
  | _ =>
      print host
        (fstr [LF; "Found "; str_nat (List.length video_files); " video files"]) ;;
      print host (fstr ["Saving thumbnails to: "; Path_str output_dir]) ;;
      batch host video_files ;;
      print host (fstr [LF; "✨ Thumbnail generation complete!"]) ;;
      print host (fstr ["Generated "; str_nat (List.length video_files);
                        " thumbnails in: "; Path_str output_dir])
  end.

(** The command [main] runs for a candidate. *)
Definition main_cmd (video_path : path) : list string :=
  cmd video_path output_dir default_timestamp.

(** ** Conditions on the host *)

(** Standard output takes the line. *)
Definition accepted (host : Host) (line : string) : bool :=
  negb (stdout_closed host) && all_chars (encodes host) line.

(** The exception of a line that standard output does not take. *)
Definition refusal (host : Host) (line : string) : exn :=
  if stdout_closed host
  then OSError BrokenPipeError "[Errno 32] Broken pipe"
  else UnicodeEncodeError (codec_message host line).

(** The first line of an extraction, and the line of its catch-all
    handler. *)
Definition processing_line (video_path : path) : string :=
  fstr [LF; "Processing "; Path_name video_path; "..."].

Definition unexpected_line (video_path : path) : string :=
  fstr ["❌ Unexpected error for "; Path_name video_path; ":"].

(** The [except Exception] clause of an extraction, after the events
    [before]: two lines, each of which the console may refuse. *)
Definition unexpected (host : Host) (video_path : path) (e : exn) (s : node)
  (before : list event) : result unit * node * list event :=
  if accepted host (unexpected_line video_path) then
    if accepted host (str_exn e) then
      (Ok tt, s,
       before ++ [EvPrint (unexpected_line video_path); EvPrint (str_exn e)])
    else
      (Raise (refusal host (str_exn e)), s,
       before ++ [EvPrint (unexpected_line video_path)])
  else (Raise (refusal host (unexpected_line video_path)), s, before).

(** The [except] clause of the cleanup, after the events [before]. *)
Definition cleanup_failed (host : Host) (e : exn) (s : node)
  (before : list event) : result unit * node * list event :=
  let line := fstr ["❌ Error cleaning up thumbnails: "; str_exn e] in
  if accepted host line
  then (Ok tt, s, before ++ [EvPrint line])
  else (Raise (refusal host line), s, before).

(** What [mkdir(exist_ok=True)] does with an [OSError] of [os.mkdir]
    other than a missing parent. *)
Definition mkdir_swallowed (host : Host) (p : path) (e : exn) (s : node) :
  result unit * node * list event :=
  match stat_fault host p s with
  | Some msg => (Raise (OSError PermissionError msg), s, [EvMkdir p])
  | None =>
      match lookup p s with
      | Some (Dir _) => (Ok tt, s, [EvMkdir p])
      | _ => (Raise e, s, [EvMkdir p])
      end
  end.

(** Standard output is open and can show every character. *)
Definition shows_everything (host : Host) : Prop :=
  stdout_closed host = false /\ forall c, unencodable host c = false.

(** No [stat] is refused. *)
Definition stat_allowed (host : Host) : Prop :=
  forall p s, stat_fault host p s = None.

(** The external program always exits, or cannot be started. *)
Definition tool_exits (host : Host) : Prop :=
  forall argv s, run_process host argv s <> Hangs.

(** Every diagnostic text the external program writes is well-formed
    UTF-8. *)
Definition stderr_decodable (host : Host) : Prop :=
  forall argv s returncode stdout stderr s',
    run_process host argv s = Exited returncode stdout stderr s' ->
    utf8_valid stderr = true.

(** ** The outcome of the reset *)

(** The file system the cleanup leaves: unchanged when the [stat] of
    [exists] is refused or the output path is not a directory, without
    the output directory when the deletion succeeds, with what a failed
    deletion left otherwise. *)
Definition after_cleanup (host : Host) (s : node) : node :=
  match stat_fault host output_dir s with
  | Some _ => s
  | None =>
      match lookup output_dir s with
      | Some (Dir children) =>
          match rmtree_fault host output_dir children with
          | None => update output_dir None s
          | Some (_, remaining) => update output_dir (Some (Dir remaining)) s
          end
      | _ => s
      end
  end.

(** [is_dir] answers, and says yes. *)
Definition is_directory (host : Host) (s : node) : bool :=
  match stat_fault host output_dir s with
  | Some _ => false
  | None => match lookup output_dir s with Some (Dir _) => true | _ => false end
  end.

(** The file systems on which [mkdir(exist_ok=True)] of the output
    directory returns: the path is a directory that [is_dir] can see, or
    it is absent below an existing video directory and the host does not
    refuse the creation. *)
Definition mkdir_completes (host : Host) (s : node) : bool :=
  match mkdir_fault host output_dir s with
  | Some _ => is_directory host s
  | None =>
      match lookup output_dir s with
      | Some _ => is_directory host s
      | None =>
          match lookup video_dir s with
          | Some (Dir _) => true
          | _ => false
          end
      end
  end.

(** The hosts and file systems on which the reset reaches its end, the
    console permitting. *)
Definition reset_completes (host : Host) (s : node) : bool :=
  mkdir_completes host (after_cleanup host s).

(** The deletion was attempted and failed. *)
Definition deletion_failed (host : Host) (s : node) : bool :=
  match stat_fault host output_dir s with
  | Some _ => false
  | None =>
      match lookup output_dir s with
      | Some (Dir children) =>
          match rmtree_fault host output_dir children with
          | Some _ => true
          | None => false
          end
      | _ => false
      end
  end.

(** What the output directory holds after a reset that completed: what
    it held before when [exists] could not see it, what a failed
    deletion left, and otherwise nothing. *)
Definition stale (host : Host) (s : node) : list (string * node) :=
  match lookup output_dir (after_cleanup host s) with
  | Some (Dir children) => children
  | _ => []
  end.

(** ** The file system of a run *)

(** What the external program, started for each candidate in turn, makes
    of a file system: each run works on what the one before left. *)
Fixpoint tool_runs (host : Host) (files : list path) (s : node) : node :=
  match files with
  | [] => s
  | video_path :: rest =>
      match run_process host (main_cmd video_path) s with
      | Exited _ _ _ s' => tool_runs host rest s'
      | _ => tool_runs host rest s
      end
  end.

(** ** Auxiliary notions for the statements *)

(** The exception is a [CalledProcessError]. *)
Definition is_called_process_error (e : exn) : bool :=
  match e with
  | CalledProcessError _ _ _ _ => true
  | _ => false
  end.

(** Every byte is ASCII. *)
Definition ascii_only (b : bytes) : bool :=
  forallb (fun x => (Byte.to_N x <? 128)%N) b.

(** The seconds denoted by a position written [HH:MM:SS]. *)
Definition digit (c : ascii) : option nat :=
  let n := nat_of_ascii c in
  if ((48 <=? n) && (n <=? 57))%nat then Some (n - 48) else None.

Definition two_digits (a b : ascii) : option nat :=
  match digit a, digit b with
  | Some x, Some y => Some (10 * x + y)
  | _, _ => None
  end.

Definition seconds (t : string) : option nat :=
  match t with
  | String h1 (String h2 (String ":" (String m1 (String m2
      (String ":" (String s1 (String s2 EmptyString))))))) =>
      match two_digits h1 h2, two_digits m1 m2, two_digits s1 s2 with
      | Some h, Some m, Some s => Some (3600 * h + 60 * m + s)
      | _, _, _ => None
      end
  | _ => None
  end.

(** Sorted by name. *)
Fixpoint sorted (names : list string) : bool :=
  match names with
  | a :: (b :: _) as rest => String.leb a b && sorted rest
  | _ => true
  end.

(** A file system whose video directory has the given entries. *)
Definition tree (entries : list (string * node)) : node :=
  Dir [("Users", Dir [("Shared", Dir [("Aerial Local",
    Dir [("Additional Videos", Dir entries)])])])].

(** ** Hosts and file systems for the examples *)

(** The components of a path written with slashes. *)
Fixpoint components (cur s : string) : list string :=
  match s with
  | EmptyString => match cur with EmptyString => [] | _ => [cur] end
  | String c s' =>
      if Ascii.eqb c "/"%char
      then match cur with EmptyString => [] | _ => [cur] end ++ components "" s'
      else components (cur ++ String c "")%string s'
  end.

(** What an extractor does when the output file is already there and
    it has not been told to replace it: it replaces it all the same, or
    says so and exits with a status (ffmpeg without [-y], its standard
    input closed, exits with 1 up to version 6.0 and with 0 since), or
    asks on the terminal and waits for the answer (ffmpeg with a terminal
    as its standard input). *)
Inductive on_existing : Type :=
| Replaces
| Declines (status : Z)
| Asks.

(** An extractor: it reads the file named after [-i]; it fails on a file
    it cannot read or that holds no video data; it treats an output file
    that exists as [existing] says, unless [-y] is among its arguments;
    else it writes a frame of the input to the path named last and exits
    with 0. *)
Definition extractor (existing : on_existing) (argv : list string)
  (s : node) : proc_result :=
  let input := nth 2 argv "" in
  let output := last argv "" in
  match lookup (components "" input) s with
  | Some (File ((_ :: _) as data)) =>
      let written :=
        update (components "" output)
          (Some (File (list_byte_of_string "frame of " ++ data))) s in
      match lookup (components "" output) s with
      | Some _ =>
          if existsb (String.eqb "-y") argv then Exited 0 [] [] written
          else
            match existing with
            | Replaces => Exited 0 [] [] written
            | Declines status =>
                Exited status []
                  (list_byte_of_string
                     (fstr ["File '"; output; "' already exists. Exiting."])) s
            | Asks => Hangs
            end
      | None => Exited 0 [] [] written
      end
  | Some (File []) =>
      Exited 1 []
        (list_byte_of_string
           (fstr [input; ": Invalid data found when processing input"])) s
  | _ =>
      Exited 1 []
        (list_byte_of_string (fstr [input; ": No such file or directory"])) s
  end.

(** A host that refuses nothing, shows every character, and runs the
    given program. *)
Definition host_running (tool : list string -> node -> proc_result) : Host :=
  {| run_process := tool;
     rmtree_fault := fun _ _ => None;
     mkdir_fault := fun _ _ => None;
     stat_fault := fun _ _ => None;
     stdout_closed := false;
     unencodable := fun _ => false;
     codec_message := fun _ => "" |}.

(** A host whose extractor, like ffmpeg up to 6.0, does not replace an
    existing output file unless told to, and exits with 1 then. *)
Definition plain_host : Host := host_running (extractor (Declines 1)).

(** The same with the exit status 0 of later versions. *)
Definition silent_host : Host := host_running (extractor (Declines 0)).

(** The same with an extractor that asks before it replaces a file. *)
Definition asking_host : Host := host_running (extractor Asks).

(** The same with an extractor that replaces existing output files. *)
Definition replacing_host : Host := host_running (extractor Replaces).

(** A host whose extractor fails on every input and reports it in
    Latin-1: the last byte of its message, an e with an acute accent, is
    not UTF-8. *)
Definition latin1_host : Host :=
  host_running (fun _ s =>
    Exited 1 [] (list_byte_of_string "Fichier endommag" ++ ["233"%byte]) s).

(** A host on which the external program is not installed. *)
Definition no_tool_host : Host :=
  host_running (fun _ _ =>
    SpawnFailed "[Errno 2] No such file or directory: 'ffmpeg'").

(** A host whose extractor fails on every input with an ASCII message. *)
Definition failing_host : Host :=
  host_running (fun _ s =>
    Exited 1 []
      (list_byte_of_string "Invalid data found when processing input") s).

(** A host on which nothing can be deleted: [rmtree] fails and leaves
    the directory as it was. *)
Definition stuck_host : Host :=
  {| run_process := extractor (Declines 1);
     rmtree_fault := fun _ children =>
       Some ("[Errno 13] Permission denied: 'stale_thumbnail.jpg'", children);
     mkdir_fault := fun _ _ => None;
     stat_fault := fun _ _ => None;
     stdout_closed := false;
     unencodable := fun _ => false;
     codec_message := fun _ => "" |}.

(** Whether a path lies below a directory. *)
Fixpoint below (dir p : path) : bool :=
  match dir, p with
  | [], _ :: _ => true
  | d :: dir', c :: p' => String.eqb d c && below dir' p'
  | _, _ => false
  end.

(** A host on which the video directory cannot be searched: nothing
    below it can be inspected or created. *)
Definition locked_host : Host :=
  let denied := fun p : path =>
    if below video_dir p
    then Some (fstr ["[Errno 13] Permission denied: '"; Path_str p; "'"])
    else None in
  {| run_process := extractor (Declines 1);
     rmtree_fault := fun _ _ => None;
     mkdir_fault := fun p _ => denied p;
     stat_fault := fun p _ => denied p;
     stdout_closed := false;
     unencodable := fun _ => false;
     codec_message := fun _ => "" |}.


Definition video (title : string) : node := File (list_byte_of_string title).

(** ** Tactics for the runs *)

(** The left-hand side is run step by step, splitting on each answer of
    the host as it is asked for; the right-hand side is then read with
    the same answers. *)
Ltac split_on t :=
  let b := fresh "answer" in
  set (b := t) in *; clearbody b; destruct b as [].

Ltac split_keeping t :=
  let b := fresh "answer" in
  let H := fresh "Answer" in
  remember t as b eqn:H in *; destruct b as [].

Ltac recall :=
  match goal with
  | H : _ = lookup ?p ?x |- context [lookup ?p ?x] => rewrite <- H
  | H : _ = stat_fault ?h ?p ?x |- context [stat_fault ?h ?p ?x] => rewrite <- H
  end.

Ltac ask_host :=
  match goal with
  | |- context [if stdout_closed ?h then _ else _] => split_on (stdout_closed h)
  | |- context [match stat_fault ?h ?p ?x with _ => _ end] =>
      split_keeping (stat_fault h p x)
  | |- context [match mkdir_fault ?h ?p ?x with _ => _ end] =>
      split_on (mkdir_fault h p x)
  | |- context [match rmtree_fault ?h ?p ?x with _ => _ end] =>
      let b := fresh "answer" in
      set (b := rmtree_fault h p x) in *; clearbody b; destruct b as [[? ?]|]
  | |- context [match lookup ?p ?x with _ => _ end] =>
      let b := fresh "answer" in
      let H := fresh "Answer" in
      remember (lookup p x) as b eqn:H in *; destruct b as [[?|?]|]
  | |- context [match run_process ?h ?c ?x with _ => _ end] =>
      split_on (run_process h c x)
  | |- context [if (?a =? 0)%Z then _ else _] => split_on (a =? 0)%Z
  | |- context [if utf8_valid ?e then _ else _] => split_on (utf8_valid e)
  | |- context [if all_chars ?f ?l then _ else _] => split_on (all_chars f l)
  end.

Ltac run_step :=
  cbv beta iota zeta in *; cbn [str_exn negb andb] in *;
  first [recall | ask_host].

Ltac run_cases :=
  match goal with
  | |- _ = ?R =>
      let rhs := fresh "rhs" in
      let E := fresh "E" in
      remember R as rhs eqn:E;
      repeat run_step;
      subst rhs; cbv beta iota zeta; cbn [str_exn negb andb app];
      rewrite ?app_nil_r; reflexivity
  end.

(** The cases of a run that has been characterised. *)
Ltac branches :=
  repeat match goal with
         | |- context [if accepted ?h ?l then _ else _] =>
             destruct (accepted h l) eqn:?
         | |- context [match run_process ?h ?c ?x with _ => _ end] =>
             destruct (run_process h c x) eqn:?
         | |- context [if (?a =? 0)%Z then _ else _] =>
             destruct (a =? 0)%Z eqn:?
         | |- context [if utf8_valid ?e then _ else _] =>
             destruct (utf8_valid e) eqn:?
         end.

(** * Properties *)

(** ** Strings and patterns *)

Lemma string_app_assoc (a b c : string) :
  ((a ++ b) ++ c = a ++ (b ++ c))%string.
Proof.
  induction a as [|x a IH]; simpl; [reflexivity | now rewrite IH].
Qed.

Lemma string_app_empty_r (a : string) : (a ++ "")%string = a.
Proof.
  induction a as [|x a IH]; simpl; [reflexivity | now rewrite IH].
Qed.

Lemma string_app_length (a b : string) :
  String.length (a ++ b)%string = String.length a + String.length b.
Proof.
  induction a as [|x a IH]; simpl; [reflexivity | now rewrite IH].
Qed.

Lemma string_app_inv_length (a a' b b' : string) :
  (a ++ b = a' ++ b')%string -> String.length b = String.length b' ->
  a = a' /\ b = b'.
Proof.
  revert a'. induction a as [|x a IH]; intros [|x' a'] E L; simpl in *.
  - now split.
  - exfalso. subst b. simpl in L. rewrite string_app_length in L. lia.
  - exfalso. subst b'. simpl in L. rewrite string_app_length in L. lia.
  - injection E as -> E. destruct (IH _ E L) as [-> ->]. now split.
Qed.

(** [any_suffix f] accepts exactly the names with a suffix that [f]
    accepts. *)
Lemma any_suffix_spec (f : string -> bool) (n : string) :
  any_suffix f n = true <->
  exists front back : string, n = (front ++ back)%string /\ f back = true.
Proof.
  induction n as [|c n IH]; simpl.
  - rewrite orb_false_r. split.
    + intros H. now exists ""%string, ""%string.
    + intros (front & back & E & H). destruct front; [|discriminate].
      simpl in E. now subst back.
  - rewrite orb_true_iff, IH. split.
    + intros [H | (front & back & -> & H)].
      * now exists ""%string, (String c n).
      * now exists (String c front), back.
    + intros (front & back & E & H). destruct front as [|x front]; simpl in E.
      * left. now subst back.
      * right. injection E as _ ->. now exists front, back.
Qed.

Lemma fnmatch_literal (pat name : string) :
  literal pat = true -> (fnmatch pat name = true <-> name = pat).
Proof.
  revert name. induction pat as [|p pat IH]; intros name L; simpl in *.
  - destruct name; split; congruence.
  - apply andb_true_iff in L as [Lp L]. apply negb_true_iff in Lp.
    rewrite Lp. destruct name as [|c name].
    + split; discriminate.
    + rewrite andb_true_iff, Ascii.eqb_eq, (IH _ L). split.
      * now intros [-> ->].
      * intros E. injection E as -> ->. now split.
Qed.

(** [*] followed by a literal text accepts the names that end with it. *)
Lemma fnmatch_star_literal (lit name : string) :
  literal lit = true ->
  (fnmatch (String "*"%char lit) name = true <-> ends_with lit name).
Proof.
  intros L. simpl. rewrite any_suffix_spec. unfold ends_with. split.
  - intros (front & back & -> & H). apply (fnmatch_literal _ _ L) in H.
    subst back. now exists front.
  - intros (front & ->). exists front, lit. split; [reflexivity|].
    now apply fnmatch_literal.
Qed.

(** Two endings of the same length that differ exclude each other. *)
Lemma ends_with_excl (a b s : string) :
  String.length a = String.length b -> a <> b ->
  ends_with a s -> ~ ends_with b s.
Proof.
  intros L N (f1 & ->) (f2 & E).
  destruct (string_app_inv_length _ _ _ _ E L) as [_ Eab]. now apply N.
Qed.

(** ** The file system *)

Lemma assoc_set_child_same (c : string) (v : option node) children :
  assoc c (set_child c v children) = v.
Proof.
  induction children as [|[c0 n0] rest IH]; simpl.
  - destruct v; simpl; [now rewrite String.eqb_refl | reflexivity].
  - destruct (String.eqb c c0) eqn:E.
    + destruct v; simpl; [now rewrite E | exact IH].
    + simpl. now rewrite E.
Qed.

Lemma lookup_app (p q : path) (n : node) :
  lookup (p ++ q) n =
  match lookup p n with Some m => lookup q m | None => None end.
Proof.
  revert n. induction p as [|c p IH]; intros n; simpl; [reflexivity|].
  destruct n as [d|children]; [reflexivity|].
  destruct (assoc c children); [apply IH | reflexivity].
Qed.

Lemma update_below (a c : string) (p : path) (v : option node) children :
  update (a :: p ++ [c]) v (Dir children) =
  match assoc a children with
  | Some n' => Dir (set_child a (Some (update (p ++ [c]) v n')) children)
  | None => Dir children
  end.
Proof. destruct p; reflexivity. Qed.

(** Updating the entry [c] of the directory at [p] changes that
    directory's entry list and nothing else about it. *)
Lemma lookup_update_parent (p : path) (c : string) (v : option node) (n : node) :
  lookup p (update (p ++ [c]) v n) =
  match lookup p n with
  | Some (Dir children) => Some (Dir (set_child c v children))
  | o => o
  end.
Proof.
  revert n. induction p as [|a p IH]; intros n.
  - destruct n; reflexivity.
  - destruct n as [d|children]; [reflexivity|].
    change ((a :: p) ++ [c]) with (a :: p ++ [c]). rewrite update_below.
    cbn [lookup]. destruct (assoc a children) as [n'|] eqn:Ea.
    + cbn [lookup]. rewrite assoc_set_child_same. apply IH.
    + cbn [lookup]. now rewrite Ea.
Qed.

Lemma lookup_update_same (p : path) (c : string) (v : option node) (n : node) :
  lookup (p ++ [c]) (update (p ++ [c]) v n) =
  match lookup p n with Some (Dir _) => v | _ => None end.
Proof.
  rewrite lookup_app, lookup_update_parent.
  destruct (lookup p n) as [[d|children]|]; try reflexivity.
  cbn [lookup]. rewrite assoc_set_child_same. now destruct v.
Qed.

(** Whatever lies below a path that is absent is absent too. *)
Lemma lookup_below_absent (p q : path) (n : node) :
  lookup p n = None -> lookup (p ++ q) n = None.
Proof. intros H. now rewrite lookup_app, H. Qed.

Lemma names_set_child (pat c : string) (v : option node) children :
  fnmatch pat c = false ->
  filter (fnmatch pat) (map fst (set_child c v children)) =
  filter (fnmatch pat) (map fst children).
Proof.
  intros Hc. induction children as [|[c0 n0] rest IH]; simpl.
  - destruct v; simpl; [now rewrite Hc | reflexivity].
  - destruct (String.eqb c c0) eqn:E.
    + apply String.eqb_eq in E. subst c0. rewrite Hc.
      destruct v; simpl; [now rewrite Hc | exact IH].
    + simpl. now rewrite IH.
Qed.

(** A glob of a directory does not see a change to an entry whose name
    the pattern rejects. *)
Lemma glob_update_child (p : path) (pat c : string) (v : option node) (n : node) :
  fnmatch pat c = false ->
  glob p pat (update (p ++ [c]) v n) = glob p pat n.
Proof.
  intros Hc. unfold glob. rewrite lookup_update_parent.
  destruct (lookup p n) as [[d|children]|]; try reflexivity.
  now rewrite names_set_child.
Qed.

(** The entries of a glob are entries of the directory itself. *)
Lemma glob_spec (p q : path) (pat : string) (n : node) :
  In q (glob p pat n) <->
  exists children name,
    lookup p n = Some (Dir children) /\ In name (map fst children) /\
    fnmatch pat name = true /\ q = joinpath p name.
Proof.
  unfold glob. split.
  - destruct (lookup p n) as [[d|children]|]; try contradiction.
    intros H. apply in_map_iff in H as (name & <- & H).
    apply filter_In in H as [H1 H2]. now exists children, name.
  - intros (children & name & -> & H1 & H2 & ->).
    apply in_map. apply filter_In. now split.
Qed.

(** ** The console *)

Lemma all_chars_app (f : ascii -> bool) (a b : string) :
  all_chars f (a ++ b)%string = all_chars f a && all_chars f b.
Proof.
  induction a as [|c a IH]; simpl; [reflexivity|].
  now rewrite IH, andb_assoc.
Qed.

Lemma print_run (host : Host) (line : string) (s : node) :
  print host line s =
  if accepted host line
  then (Ok tt, s, [EvPrint line])
  else (Raise (refusal host line), s, []).
Proof.
  unfold print, accepted, refusal. destruct (stdout_closed host); [reflexivity|].
  cbn [negb andb]. now destruct (all_chars (encodes host) line).
Qed.

Lemma shows_everything_accepted (host : Host) (line : string) :
  shows_everything host -> accepted host line = true.
Proof.
  intros [C U]. unfold accepted. rewrite C. cbn [negb andb].
  induction line as [|c line IH]; [reflexivity|]. cbn [all_chars].
  rewrite IH, andb_true_r. unfold encodes. rewrite U. apply orb_true_r.
Qed.

(** A console that takes the line which reports an unexpected error for
    a video also takes the line which announces its processing: the
    first holds the name too, and more. *)
Lemma accepted_unexpected_processing (host : Host) (video_path : path) :
  accepted host (unexpected_line video_path) = true ->
  accepted host (processing_line video_path) = true.
Proof.
  unfold accepted, unexpected_line, processing_line, fstr, LF. cbn [concat].
  destruct (stdout_closed host); [discriminate|]. cbn [negb andb].
  cbn [String.append all_chars]. rewrite !all_chars_app.
  intros H.
  repeat match goal with
         | A : _ && _ = true |- _ => apply andb_true_iff in A; destruct A
         end.
  match goal with
  | N : all_chars _ (Path_name _) = true |- _ => rewrite N
  end.
  reflexivity.
Qed.

(** ** What each function of the script does *)

Lemma spawned_app (t u : list event) : spawned (t ++ u) = spawned t ++ spawned u.
Proof.
  induction t as [|e t IH]; simpl; [reflexivity|].
  destruct e; simpl; now rewrite IH.
Qed.

Lemma printed_app (t u : list event) : printed (t ++ u) = printed t ++ printed u.
Proof.
  induction t as [|e t IH]; simpl; [reflexivity|].
  destruct e; simpl; now rewrite IH.
Qed.

Lemma bind_assoc {A B C} (m : M A) (k : A -> M B) (k' : B -> M C) (s : node) :
  bind (bind m k) k' s = bind m (fun x => bind (k x) k') s.
Proof.
  unfold bind. destruct (m s) as [[[a|e|] s1] t1]; try reflexivity.
  destruct (k a s1) as [[[b|e|] s2] t2]; try reflexivity.
  destruct (k' b s2) as [[r s3] t3]. now rewrite app_assoc.
Qed.

Section Runs.

Variable host : Host.

(** Every way a single extraction can go. *)
Lemma generate_thumbnail_run (video_path out : path) (timestamp : option string)
  (s : node) :
  generate_thumbnail host video_path out timestamp s =
  let t := match timestamp with Some t => t | None => default_timestamp end in
  let start := [EvPrint (processing_line video_path);
                EvSpawn (cmd video_path out t)] in
  let generated :=
    fstr ["✅ Generated thumbnail: "; Path_str (thumbnail_path video_path out)] in
  let failed := fstr ["❌ Error processing "; Path_name video_path; ":"] in
  if accepted host (processing_line video_path) then
    match run_process host (cmd video_path out t) s with
    | Hangs => (Blocked, s, start)
    | SpawnFailed msg =>
        unexpected host video_path (OSError FileNotFoundError msg) s start
    | Exited returncode _ stderr s' =>
        if (returncode =? 0)%Z then
          if accepted host generated
          then (Ok tt, s', start ++ [EvPrint generated])
          else unexpected host video_path (refusal host generated) s' start
        else if accepted host failed then
          if utf8_valid stderr then
            if accepted host (string_of_list_byte stderr)
            then (Ok tt, s',
                  start ++ [EvPrint failed; EvPrint (string_of_list_byte stderr)])
            else (Raise (refusal host (string_of_list_byte stderr)), s',
                  start ++ [EvPrint failed])
          else (Raise (UnicodeDecodeError "'utf-8' codec can't decode bytes"), s',
                start ++ [EvPrint failed])
        else (Raise (refusal host failed), s', start)
    end
  else unexpected host video_path (refusal host (processing_line video_path)) s [].
Proof.
  unfold generate_thumbnail, try_except, bind, subprocess_run, bytes_decode,
    ret, raise, unexpected, print, accepted, refusal.
  fold (processing_line video_path). fold (unexpected_line video_path).
  cbv zeta. run_cases.
Qed.

(** Every way the cleanup can go. *)
Lemma cleanup_thumbnails_run (out : path) (s : node) :
  cleanup_thumbnails host out s =
  let cleaning :=
    fstr [LF; "🗑️  Cleaning up old thumbnails directory: "; Path_str out] in
  let start := [EvPrint cleaning; EvRmtree out] in
  match stat_fault host out s with
  | Some msg => cleanup_failed host (OSError PermissionError msg) s []
  | None =>
      match lookup out s with
      | None => (Ok tt, s, [])
      | Some n =>
          if accepted host cleaning then
            match n with
            | File _ =>
                cleanup_failed host
                  (OSError NotADirectoryError (rmtree_not_a_directory_msg out))
                  s start
            | Dir children =>
                match rmtree_fault host out children with
                | None =>
                    if accepted host "✅ Old thumbnails removed"
                    then (Ok tt, update out None s,
                          start ++ [EvPrint "✅ Old thumbnails removed"])
                    else cleanup_failed host
                           (refusal host "✅ Old thumbnails removed")
                           (update out None s) start
                | Some (msg, remaining) =>
                    cleanup_failed host (OSError PermissionError msg)
                      (update out (Some (Dir remaining)) s) start
                end
            end
          else cleanup_failed host (refusal host cleaning) s []
      end
  end.
Proof.
  unfold cleanup_thumbnails, try_except, bind, Path_exists, shutil_rmtree,
    ret, raise, cleanup_failed, print, accepted, refusal.
  cbv zeta. run_cases.
Qed.

(** Every way the creation can go. *)
Lemma Path_mkdir_exist_ok_run (p : path) (s : node) :
  Path_mkdir_exist_ok host p s =
  match mkdir_fault host p s with
  | Some msg => mkdir_swallowed host p (OSError PermissionError msg) s
  | None =>
      match lookup p s with
      | Some _ => mkdir_swallowed host p (OSError FileExistsError (errno_msg 17 p)) s
      | None =>
          match lookup (parent p) s with
          | None =>
              (Raise (OSError FileNotFoundError (errno_msg 2 p)), s, [EvMkdir p])
          | Some (File _) =>
              mkdir_swallowed host p
                (OSError NotADirectoryError (errno_msg 20 p)) s
          | Some (Dir _) => (Ok tt, update p (Some (Dir [])) s, [EvMkdir p])
          end
      end
  end.
Proof.
  unfold Path_mkdir_exist_ok, try_except, os_mkdir, bind, Path_is_dir, raise,
    ret, mkdir_swallowed.
  run_cases.
Qed.

(** ** Consequences for a single extraction *)

(** An extraction starts the program at most once, with [cmd], and does
    so exactly when the console takes its first line. *)
Lemma generate_thumbnail_spawned (video_path out : path)
  (timestamp : option string) (s : node) :
  spawned (events (generate_thumbnail host video_path out timestamp s)) =
  if accepted host (processing_line video_path)
  then [cmd video_path out
          (match timestamp with Some t => t | None => default_timestamp end)]
  else [].
Proof.
  rewrite generate_thumbnail_run. cbv zeta. unfold unexpected.
  branches; reflexivity.
Qed.

(** An extraction that returns has started the program. *)
Lemma generate_thumbnail_ok_accepted (video_path out : path)
  (timestamp : option string) (s : node) :
  res (generate_thumbnail host video_path out timestamp s) = Ok tt ->
  accepted host (processing_line video_path) = true.
Proof.
  rewrite generate_thumbnail_run. cbv zeta. unfold unexpected.
  destruct (accepted host (processing_line video_path)) eqn:P; [reflexivity|].
  destruct (accepted host (unexpected_line video_path)) eqn:U.
  - now rewrite (accepted_unexpected_processing _ _ U) in P.
  - discriminate.
Qed.

(** The script writes no file itself: after an extraction the file
    system is as the external program left it. *)
Lemma generate_thumbnail_fs (video_path out : path)
  (timestamp : option string) (s : node) :
  fs_after (generate_thumbnail host video_path out timestamp s) =
  if accepted host (processing_line video_path) then
    match run_process host
            (cmd video_path out
               (match timestamp with Some t => t | None => default_timestamp end)) s
    with
    | Exited _ _ _ s' => s'
    | _ => s
    end
  else s.
Proof.
  rewrite generate_thumbnail_run. cbv zeta. unfold unexpected.
  branches; reflexivity.
Qed.

(** On a console that shows everything, an extraction returns whenever
    the program exits, or cannot be started, and its diagnostics
    decode. *)
Lemma generate_thumbnail_returns (video_path out : path)
  (timestamp : option string) (s : node) :
  shows_everything host -> tool_exits host -> stderr_decodable host ->
  res (generate_thumbnail host video_path out timestamp s) = Ok tt.
Proof.
  intros C X D. rewrite generate_thumbnail_run. cbv zeta. unfold unexpected.
  rewrite !(shows_everything_accepted host _ C).
  destruct (run_process host _ s) as [rc out' err s'|msg|] eqn:R.
  - rewrite !(shows_everything_accepted host _ C).
    destruct (rc =? 0)%Z; [reflexivity|]. now rewrite (D _ _ _ _ _ _ R).
  - now rewrite !(shows_everything_accepted host _ C).
  - now apply X in R.
Qed.

Lemma refusal_not_called_process_error (line : string) rc c o e :
  refusal host line <> CalledProcessError rc c o e.
Proof. unfold refusal. now destruct (stdout_closed host). Qed.

End Runs.

(** ** The loop *)

Section Loop.

Variable host : Host.

Lemma batch_cons (v : path) (files : list path) (s : node) :
  batch host (v :: files) s =
  match generate_thumbnail host v output_dir None s with
  | (Ok _, s1, t1) => let '(r, s2, t2) := batch host files s1 in (r, s2, t1 ++ t2)
  | (Raise e, s1, t1) => (Raise e, s1, t1)
  | (Blocked, s1, t1) => (Blocked, s1, t1)
  end.
Proof. reflexivity. Qed.

(** The loop starts the program for the candidates in order, and stops
    at the first extraction that does not return. *)
Lemma batch_spawned (files : list path) (s : node) :
  exists k, spawned (events (batch host files s)) = map main_cmd (firstn k files).
Proof.
  revert s. induction files as [|v files IH]; intros s.
  - now exists 0.
  - rewrite batch_cons.
    pose proof (generate_thumbnail_spawned host v output_dir None s) as G.
    pose proof (generate_thumbnail_ok_accepted host v output_dir None s) as A.
    destruct (generate_thumbnail host v output_dir None s) as [[[[]|e|] s1] t1];
      unfold events, res in *; cbn [fst snd] in *.
    + rewrite (A eq_refl) in G. destruct (IH s1) as [k Hk].
      destruct (batch host files s1) as [[r s2] t2]. exists (S k).
      cbn [snd firstn map] in *. now rewrite spawned_app, G, Hk.
    + destruct (accepted host (processing_line v));
        [now exists 1 | now exists 0].
    + destruct (accepted host (processing_line v));
        [now exists 1 | now exists 0].
Qed.

Lemma batch_spawned_all (files : list path) (s : node) :
  res (batch host files s) = Ok tt ->
  spawned (events (batch host files s)) = map main_cmd files.
Proof.
  revert s. induction files as [|v files IH]; intros s; [reflexivity|].
  rewrite batch_cons.
  pose proof (generate_thumbnail_spawned host v output_dir None s) as G.
  pose proof (generate_thumbnail_ok_accepted host v output_dir None s) as A.
  destruct (generate_thumbnail host v output_dir None s) as [[[[]|e|] s1] t1];
    unfold events, res in *; cbn [fst snd] in *; try discriminate.
  rewrite (A eq_refl) in G. specialize (IH s1).
  destruct (batch host files s1) as [[r s2] t2]. cbn [fst snd map] in *.
  intros ->. now rewrite spawned_app, G, IH.
Qed.

Lemma batch_completes (files : list path) (s : node) :
  shows_everything host -> tool_exits host -> stderr_decodable host ->
  res (batch host files s) = Ok tt.
Proof.
  intros C X D. revert s. induction files as [|v files IH]; intros s;
    [reflexivity|].
  rewrite batch_cons.
  pose proof (generate_thumbnail_returns host v output_dir None s C X D) as G.
  destruct (generate_thumbnail host v output_dir None s) as [[[[]|e|] s1] t1];
    try discriminate.
  specialize (IH s1). now destruct (batch host files s1) as [[r s2] t2].
Qed.

(** ** The reset, on any host *)

Lemma lookup_output_dir (s : node) :
  lookup output_dir s =
  match lookup video_dir s with
  | Some (Dir children) => assoc "thumbnails" children
  | _ => None
  end.
Proof.
  unfold output_dir, joinpath. rewrite lookup_app.
  destruct (lookup video_dir s) as [[d|children]|]; try reflexivity.
  cbn [lookup]. now destruct (assoc "thumbnails" children).
Qed.

Lemma lookup_video_dir_update (v : option node) (s : node) :
  lookup video_dir (update output_dir v s) =
  match lookup video_dir s with
  | Some (Dir children) => Some (Dir (set_child "thumbnails" v children))
  | o => o
  end.
Proof. apply lookup_update_parent. Qed.

Lemma lookup_output_dir_update (v : option node) (s : node) :
  lookup output_dir (update output_dir v s) =
  match lookup video_dir s with Some (Dir _) => v | _ => None end.
Proof. apply lookup_update_same. Qed.

(** The output directory has no name the patterns accept, so what the
    reset does to it leaves the candidates as they were. *)
Lemma video_files_update (v : option node) (s : node) :
  video_files (update output_dir v s) = video_files s.
Proof.
  unfold video_files, output_dir, joinpath.
  now rewrite !glob_update_child by reflexivity.
Qed.

Lemma reset_run (s : node) :
  reset host s =
  match cleanup_thumbnails host output_dir s with
  | (Ok _, s1, t1) =>
      let '(r, s2, t2) := Path_mkdir_exist_ok host output_dir s1 in
      (r, s2, t1 ++ t2)
  | (Raise e, s1, t1) => (Raise e, s1, t1)
  | (Blocked, s1, t1) => (Blocked, s1, t1)
  end.
Proof. reflexivity. Qed.

(** Whatever happens, the cleanup leaves the file system as it was or
    with something else at the output path, and starts no process. *)
Lemma cleanup_effect (s : node) :
  (fs_after (cleanup_thumbnails host output_dir s) = s \/
   exists v, fs_after (cleanup_thumbnails host output_dir s) = update output_dir v s) /\
  spawned (events (cleanup_thumbnails host output_dir s)) = [].
Proof.
  rewrite cleanup_thumbnails_run. cbv zeta. unfold cleanup_failed.
  repeat match goal with
         | |- context [match stat_fault ?h ?p ?x with _ => _ end] =>
             destruct (stat_fault h p x)
         | |- context [match lookup ?p ?x with _ => _ end] =>
             destruct (lookup p x) as [[?|?]|]
         | |- context [match rmtree_fault ?h ?p ?x with _ => _ end] =>
             destruct (rmtree_fault h p x) as [[? ?]|]
         | |- context [if accepted ?h ?l then _ else _] =>
             destruct (accepted h l)
         end;
    (split; [first [now left | right; now eexists] | reflexivity]).
Qed.

Lemma mkdir_effect (s : node) :
  (fs_after (Path_mkdir_exist_ok host output_dir s) = s \/
   exists v, fs_after (Path_mkdir_exist_ok host output_dir s) = update output_dir v s) /\
  events (Path_mkdir_exist_ok host output_dir s) = [EvMkdir output_dir].
Proof.
  rewrite Path_mkdir_exist_ok_run. unfold mkdir_swallowed.
  repeat match goal with
         | |- context [match stat_fault ?h ?p ?x with _ => _ end] =>
             destruct (stat_fault h p x)
         | |- context [match mkdir_fault ?h ?p ?x with _ => _ end] =>
             destruct (mkdir_fault h p x)
         | |- context [match lookup ?p ?x with _ => _ end] =>
             destruct (lookup p x) as [[?|?]|]
         end;
    (split; [first [now left | right; now eexists] | reflexivity]).
Qed.

(** What the reset does to the file system is a sequence of changes at
    the output path. *)
Lemma reset_effect (s : node) :
  (exists vs : list (option node),
     fs_after (reset host s) = fold_left (fun acc v => update output_dir v acc) vs s) /\
  spawned (events (reset host s)) = [].
Proof.
  rewrite reset_run. destruct (cleanup_effect s) as [F S].
  destruct (cleanup_thumbnails host output_dir s) as [[[[]|e|] s1] t1];
    unfold fs_after, events in *; cbn [fst snd] in *.
  - destruct (mkdir_effect s1) as [F2 E2].
    destruct (Path_mkdir_exist_ok host output_dir s1) as [[r s2] t2].
    unfold fs_after, events in *. cbn [fst snd] in *. subst t2.
    split; [|rewrite spawned_app, S; reflexivity].
    destruct F as [-> | [v ->]], F2 as [-> | [v2 ->]].
    + now exists [].
    + now exists [v2].
    + now exists [v].
    + now exists [v; v2].
  - split; [|exact S]. destruct F as [-> | [v ->]];
      [now exists [] | now exists [v]].
  - split; [|exact S]. destruct F as [-> | [v ->]];
      [now exists [] | now exists [v]].
Qed.

Lemma reset_spawned (s : node) : spawned (events (reset host s)) = [].
Proof. apply reset_effect. Qed.

Lemma reset_video_files (s : node) :
  video_files (fs_after (reset host s)) = video_files s.
Proof.
  destruct (reset_effect s) as [[vs ->] _]. revert s.
  induction vs as [|v vs IH]; intros s; [reflexivity|].
  cbn [fold_left]. now rewrite IH, video_files_update.
Qed.

End Loop.

(** ** The reset on a console that shows everything *)

Section Reset.

Variable host : Host.
Hypothesis console : shows_everything host.

Lemma cleanup_thumbnails_returns (s : node) :
  res (cleanup_thumbnails host output_dir s) = Ok tt /\
  fs_after (cleanup_thumbnails host output_dir s) = after_cleanup host s.
Proof.
  rewrite cleanup_thumbnails_run. cbv zeta. unfold cleanup_failed, after_cleanup.
  rewrite !(shows_everything_accepted host _ console).
  destruct (stat_fault host output_dir s);
    [rewrite !(shows_everything_accepted host _ console); now split|].
  destruct (lookup output_dir s) as [[d|children]|];
    rewrite ?(shows_everything_accepted host _ console); try now split.
  destruct (rmtree_fault host output_dir children) as [[msg remaining]|];
    rewrite ?(shows_everything_accepted host _ console); now split.
Qed.

Lemma mkdir_outcome (s : node) :
  if mkdir_completes host s
  then res (Path_mkdir_exist_ok host output_dir s) = Ok tt /\
       lookup output_dir (fs_after (Path_mkdir_exist_ok host output_dir s)) =
         Some (Dir match lookup output_dir s with
                   | Some (Dir children) => children
                   | _ => []
                   end)
  else exists e, res (Path_mkdir_exist_ok host output_dir s) = Raise e.
Proof.
  rewrite Path_mkdir_exist_ok_run. unfold mkdir_completes, is_directory,
    mkdir_swallowed. change (parent output_dir) with video_dir.
  destruct (mkdir_fault host output_dir s);
    destruct (stat_fault host output_dir s);
    destruct (lookup output_dir s) as [[d|children]|] eqn:L;
    try destruct (lookup video_dir s) as [[d'|children']|] eqn:V;
    rewrite ?L;
    first [ now eexists
          | unfold res, fs_after; cbn [fst snd]; split; [reflexivity|];
            rewrite ?L, ?lookup_output_dir_update, ?V; reflexivity ].
Qed.

(** When the reset reaches its end, the output path is a directory,
    holding [stale]. *)
Lemma reset_ok (s : node) :
  reset_completes host s = true ->
  res (reset host s) = Ok tt /\
  lookup output_dir (fs_after (reset host s)) = Some (Dir (stale host s)).
Proof.
  unfold reset_completes, stale. intros C. rewrite reset_run.
  destruct (cleanup_thumbnails_returns s) as [R F].
  destruct (cleanup_thumbnails host output_dir s) as [[r1 s1] t1].
  unfold res, fs_after in R, F. cbn [fst snd] in R, F. subst r1 s1.
  pose proof (mkdir_outcome (after_cleanup host s)) as O. rewrite C in O.
  destruct (Path_mkdir_exist_ok host output_dir (after_cleanup host s))
    as [[r s2] t2]. exact O.
Qed.

Lemma reset_fails (s : node) :
  reset_completes host s = false -> exists e, res (reset host s) = Raise e.
Proof.
  unfold reset_completes. intros C. rewrite reset_run.
  destruct (cleanup_thumbnails_returns s) as [R F].
  destruct (cleanup_thumbnails host output_dir s) as [[r1 s1] t1].
  unfold res, fs_after in R, F. cbn [fst snd] in R, F. subst r1 s1.
  pose proof (mkdir_outcome (after_cleanup host s)) as O. rewrite C in O.
  destruct (Path_mkdir_exist_ok host output_dir (after_cleanup host s))
    as [[r s2] t2]. exact O.
Qed.

Lemma reset_reaches_mkdir (s : node) :
  In (EvMkdir output_dir) (events (reset host s)).
Proof.
  rewrite reset_run. destruct (cleanup_thumbnails_returns s) as [R _].
  destruct (cleanup_thumbnails host output_dir s) as [[r1 s1] t1].
  unfold res in R. cbn [fst] in R. subst r1.
  destruct (mkdir_effect host s1) as [_ E].
  destruct (Path_mkdir_exist_ok host output_dir s1) as [[r s2] t2].
  unfold events in *. cbn [snd] in *. subst t2. apply in_or_app. right.
  now left.
Qed.

End Reset.

(** ** The whole run *)

Lemma Path_glob_run (host : Host) (p : path) (pattern : string) (s : node) :
  Path_glob host p pattern s =
  match stat_fault host p s with
  | Some msg => (Raise (OSError PermissionError msg), s, [])
  | None => (Ok (glob p pattern s), s, [])
  end.
Proof.
  unfold Path_glob, bind, Path_is_dir, ret.
  destruct (stat_fault host p s); [reflexivity|].
  destruct (lookup p s) as [[d|children]|] eqn:L; cbv beta iota;
    unfold glob; now rewrite L.
Qed.

(** [main] is the reset, then the glob, which asks [is_dir] of the video
    directory, then [batch_stage] on its result. *)
Lemma main_run (host : Host) (s : node) :
  main host s =
  match reset host s with
  | (Ok _, s2, t2) =>
      match stat_fault host video_dir s2 with
      | Some msg => (Raise (OSError PermissionError msg), s2, t2)
      | None =>
          let '(r, s3, t3) := batch_stage host (video_files s2) s2 in
          (r, s3, t2 ++ t3)
      end
  | (Raise e, s2, t2) => (Raise e, s2, t2)
  | (Blocked, s2, t2) => (Blocked, s2, t2)
  end.
Proof.
  rewrite reset_run. unfold main. unfold bind at 1.
  destruct (cleanup_thumbnails host output_dir s) as [[[[]|e1|] s1] t1];
    try reflexivity.
  unfold bind at 1.
  destruct (Path_mkdir_exist_ok host output_dir s1) as [[[[]|e2|] s2] t2];
    try reflexivity.
  unfold bind at 1. rewrite Path_glob_run.
  destruct (stat_fault host video_dir s2) eqn:St.
  - now rewrite app_nil_r.
  - unfold bind at 1. rewrite Path_glob_run, St. fold (video_files s2).
    unfold batch_stage.
    destruct (match video_files s2 with
              | [] => print host "No video files found in directory!"
              | _ :: _ => _
              end s2) as [[r s3] t3].
    cbn [app]. now rewrite app_assoc.
Qed.

(** Every way the end of [main] can go when there are candidates. *)
Lemma batch_stage_cons (host : Host) (v : path) (rest : list path) (s : node) :
  let files := v :: rest in
  let found := fstr [LF; "Found "; str_nat (List.length files); " video files"] in
  let saving := fstr ["Saving thumbnails to: "; Path_str output_dir] in
  let complete := fstr [LF; "✨ Thumbnail generation complete!"] in
  let summary := fstr ["Generated "; str_nat (List.length files);
                       " thumbnails in: "; Path_str output_dir] in
  batch_stage host files s =
  if accepted host found then
    if accepted host saving then
      match batch host files s with
      | (Ok _, s3, t3) =>
          if accepted host complete then
            if accepted host summary
            then (Ok tt, s3,
                  [EvPrint found; EvPrint saving] ++ t3 ++
                  [EvPrint complete; EvPrint summary])
            else (Raise (refusal host summary), s3,
                  [EvPrint found; EvPrint saving] ++ t3 ++ [EvPrint complete])
          else (Raise (refusal host complete), s3,
                [EvPrint found; EvPrint saving] ++ t3)
      | (Raise e, s3, t3) => (Raise e, s3, [EvPrint found; EvPrint saving] ++ t3)
      | (Blocked, s3, t3) => (Blocked, s3, [EvPrint found; EvPrint saving] ++ t3)
      end
    else (Raise (refusal host saving), s, [EvPrint found])
  else (Raise (refusal host found), s, []).
Proof.
  cbv zeta. unfold batch_stage. unfold bind at 1. rewrite print_run.
  destruct (accepted host _); [|reflexivity].
  unfold bind at 1. rewrite print_run.
  destruct (accepted host _); [|reflexivity].
  unfold bind at 1.
  destruct (batch host (v :: rest) s) as [[[[]|e|] s3] t3]; try reflexivity.
  unfold bind at 1. rewrite print_run.
  destruct (accepted host _); [|now rewrite app_nil_r].
  rewrite print_run.
  destruct (accepted host _); cbn [app]; rewrite ?app_nil_r; reflexivity.
Qed.

Lemma batch_stage_spawned (host : Host) (files : list path) (s : node) :
  match res (batch_stage host files s) with
  | Ok _ => spawned (events (batch_stage host files s)) = map main_cmd files
  | _ =>
      exists k,
        spawned (events (batch_stage host files s)) = map main_cmd (firstn k files)
  end.
Proof.
  destruct files as [|v rest].
  - unfold batch_stage. rewrite print_run.
    destruct (accepted host _); [reflexivity | now exists 0].
  - rewrite batch_stage_cons.
    destruct (accepted host _); [|now exists 0].
    destruct (accepted host _); [|now exists 0].
    pose proof (batch_spawned host (v :: rest) s) as [k P].
    pose proof (batch_spawned_all host (v :: rest) s) as A.
    destruct (batch host (v :: rest) s) as [[[[]|e|] s3] t3];
      unfold res, events in *; cbn [fst snd] in *.
    + specialize (A eq_refl).
      destruct (accepted host _);
        [destruct (accepted host _)|];
        cbn [fst snd]; try exists (List.length (v :: rest));
        rewrite ?firstn_all; cbn [app spawned]; rewrite ?spawned_app;
        cbn [spawned]; rewrite ?app_nil_r; exact A.
    + exists k. exact P.
    + exists k. exact P.
Qed.

(** The processes of a run are those of the candidates, in their order:
    all of them when the run returns, the first few otherwise. *)
Lemma main_spawned (host : Host) (s : node) :
  match res (main host s) with
  | Ok _ => spawned (events (main host s)) = map main_cmd (video_files s)
  | _ =>
      exists k,
        spawned (events (main host s)) = map main_cmd (firstn k (video_files s))
  end.
Proof.
  rewrite main_run.
  pose proof (reset_video_files host s) as V.
  pose proof (reset_spawned host s) as R.
  destruct (reset host s) as [[[[]|e|] s2] t2]; unfold fs_after, events in V, R;
    cbn [fst snd] in V, R; try (exists 0; exact R).
  destruct (stat_fault host video_dir s2); [exists 0; exact R|].
  rewrite V. pose proof (batch_stage_spawned host (video_files s) s2) as B.
  destruct (batch_stage host (video_files s) s2) as [[[[]|e|] s3] t3];
    unfold res, events in *; cbn [fst snd] in *.
  - now rewrite spawned_app, R.
  - destruct B as [k B]. exists k. now rewrite spawned_app, R.
  - destruct B as [k B]. exists k. now rewrite spawned_app, R.
Qed.

(** On a host that shows everything and refuses no [stat], with a
    program that exits and diagnostics that decode, the run returns once
    the reset is through. *)
Lemma main_completes (host : Host) (s : node) :
  shows_everything host -> stat_allowed host ->
  tool_exits host -> stderr_decodable host ->
  reset_completes host s = true ->
  res (main host s) = Ok tt.
Proof.
  intros C St X D Rc. rewrite main_run. destruct (reset_ok host C s Rc) as [R _].
  destruct (reset host s) as [[r s2] t2]. unfold res in R. cbn [fst] in R.
  subst r. rewrite St. destruct (video_files s2) as [|v files].
  - unfold batch_stage. now rewrite print_run, (shows_everything_accepted host _ C).
  - rewrite batch_stage_cons. cbv zeta.
    rewrite !(shows_everything_accepted host _ C).
    pose proof (batch_completes host (v :: files) s2 C X D) as B.
    destruct (batch host (v :: files) s2) as [[[[]|e|] s3] t3];
      try discriminate.
    now rewrite ?(shows_everything_accepted host _ C).
Qed.

Lemma main_starts_with_reset (host : Host) (s : node) :
  exists rest, events (main host s) = events (reset host s) ++ rest.
Proof.
  rewrite main_run. destruct (reset host s) as [[[[]|e|] s2] t2];
    try (exists []; unfold events; cbn [snd]; now rewrite app_nil_r).
  destruct (stat_fault host video_dir s2);
    [exists []; unfold events; cbn [snd]; now rewrite app_nil_r|].
  destruct (batch_stage host (video_files s2) s2) as [[r s3] t3]. now exists t3.
Qed.

Lemma main_raises_with_reset (host : Host) (s : node) (e : exn) :
  res (reset host s) = Raise e -> res (main host s) = Raise e.
Proof.
  rewrite main_run. destruct (reset host s) as [[[[]|e'|] s2] t2]; intros H;
    try discriminate. exact H.
Qed.

Lemma joinpath_inj (p : path) (a b : string) :
  joinpath p a = joinpath p b -> a = b.
Proof.
  unfold joinpath. intros H. apply app_inv_head in H. now injection H.
Qed.

(** ** The file system after a run *)

Lemma batch_fs (host : Host) (files : list path) (s : node) :
  res (batch host files s) = Ok tt ->
  fs_after (batch host files s) = tool_runs host files s.
Proof.
  revert s. induction files as [|v files IH]; intros s; [reflexivity|].
  rewrite batch_cons.
  pose proof (generate_thumbnail_fs host v output_dir None s) as F.
  pose proof (generate_thumbnail_ok_accepted host v output_dir None s) as A.
  destruct (generate_thumbnail host v output_dir None s) as [[[[]|e|] s1] t1];
    unfold fs_after, res in *; cbn [fst snd] in *; try discriminate.
  rewrite (A eq_refl) in F. specialize (IH s1).
  destruct (batch host files s1) as [[r s2] t2]. cbn [fst snd] in *.
  intros R. rewrite (IH R). cbn [tool_runs]. fold (main_cmd v) in F.
  subst s1. now destruct (run_process host (main_cmd v) s).
Qed.

Lemma batch_stage_fs (host : Host) (files : list path) (s : node) :
  res (batch_stage host files s) = Ok tt ->
  fs_after (batch_stage host files s) = tool_runs host files s.
Proof.
  destruct files as [|v rest].
  - unfold batch_stage. rewrite print_run. now destruct (accepted host _).
  - rewrite batch_stage_cons. cbv zeta.
    destruct (accepted host _); [|discriminate].
    destruct (accepted host _); [|discriminate].
    pose proof (batch_fs host (v :: rest) s) as B.
    destruct (batch host (v :: rest) s) as [[[[]|e|] s3] t3];
      try discriminate.
    unfold res, fs_after in B. cbn [fst snd] in B. specialize (B eq_refl).
    destruct (accepted host _); [|discriminate].
    destruct (accepted host _); [|discriminate].
    intros _. exact B.
Qed.

(** The script writes no file during the batch stage: when the run
    returns, the file system is what the successive runs of the external
    program made of the one the reset left. *)
Lemma main_fs (host : Host) (s : node) :
  res (main host s) = Ok tt ->
  fs_after (main host s) =
  tool_runs host (video_files s) (fs_after (reset host s)).
Proof.
  rewrite main_run. pose proof (reset_video_files host s) as V.
  destruct (reset host s) as [[[[]|e|] s2] t2]; try discriminate.
  unfold fs_after in V. cbn [fst snd] in V.
  destruct (stat_fault host video_dir s2); [discriminate|]. rewrite V.
  pose proof (batch_stage_fs host (video_files s) s2) as B.
  destruct (batch_stage host (video_files s) s2) as [[r s3] t3].
  unfold res, fs_after in *. cbn [fst snd] in *. exact B.
Qed.

(** ** More on the reset *)

(** When the reset raises, the run is the reset. *)
Lemma main_is_reset_when_it_raises (host : Host) (s : node) (e : exn) :
  res (reset host s) = Raise e -> main host s = reset host s.
Proof.
  rewrite main_run. destruct (reset host s) as [[[[]|e'|] s2] t2]; intros H;
    try discriminate. reflexivity.
Qed.

(** No line of the reset starts like the line that reports an empty
    batch. *)
Lemma reset_does_not_report_candidates (host : Host) (s : node) :
  ~ In "No video files found in directory!" (printed (events (reset host s))).
Proof.
  assert (D : forall a b : string,
            match a with String c _ => nat_of_ascii c | EmptyString => 0 end <>
            match b with String c _ => nat_of_ascii c | EmptyString => 0 end ->
            a <> b) by (intros a b N E; apply N; now rewrite E).
  assert (C : ~ In "No video files found in directory!"
                (printed (events (cleanup_thumbnails host output_dir s)))).
  { rewrite cleanup_thumbnails_run. cbv zeta. unfold cleanup_failed.
    repeat match goal with
           | |- context [match stat_fault ?h ?p ?x with _ => _ end] =>
               destruct (stat_fault h p x)
           | |- context [match lookup ?p ?x with _ => _ end] =>
               destruct (lookup p x) as [[?|?]|]
           | |- context [match rmtree_fault ?h ?p ?x with _ => _ end] =>
               destruct (rmtree_fault h p x) as [[? ?]|]
           | |- context [if accepted ?h ?l then _ else _] =>
               destruct (accepted h l)
           end;
      unfold events; cbn [snd app printed In];
      intros H;
      repeat match goal with
             | H : _ \/ _ |- _ => destruct H as [H | H]
             | H : False |- _ => contradiction H
             end;
      symmetry in H; revert H; apply D; vm_compute; discriminate. }
  rewrite reset_run.
  destruct (cleanup_thumbnails host output_dir s) as [[[[]|e|] s1] t1];
    unfold events in *; cbn [snd] in *; try exact C.
  destruct (mkdir_effect host s1) as [_ E].
  destruct (Path_mkdir_exist_ok host output_dir s1) as [[r s2] t2].
  unfold events in E. cbn [snd] in *. subst t2.
  rewrite printed_app. cbn [printed]. now rewrite app_nil_r.
Qed.

(** What the output directory holds after the cleanup, when [exists]
    could see it: what a failed deletion left, and otherwise nothing. *)
Lemma stale_run (host : Host) (s : node) :
  stat_fault host output_dir s = None ->
  stale host s =
  match lookup output_dir s with
  | Some (Dir children) =>
      match rmtree_fault host output_dir children with
      | Some (_, remaining) => remaining
      | None => []
      end
  | _ => []
  end.
Proof.
  intros St. unfold stale, after_cleanup. rewrite St.
  pose proof (lookup_output_dir s) as V.
  destruct (lookup output_dir s) as [[d|children]|] eqn:L; rewrite ?L;
    try reflexivity.
  destruct (rmtree_fault host output_dir children) as [[msg remaining]|];
    rewrite lookup_output_dir_update;
    destruct (lookup video_dir s) as [[d|c]|]; try discriminate; reflexivity.
Qed.

(** ** Commands *)

Lemma Path_str_slash (p : path) : exists rest, Path_str p = String "/"%char rest.
Proof.
  destruct p as [|c [|c' p]]; cbn; now eexists.
Qed.

Lemma main_cmd_no_overwrite_flag (video_path : path) :
  existsb (String.eqb "-y") (main_cmd video_path) = false.
Proof.
  unfold main_cmd, cmd. cbn [existsb].
  destruct (Path_str_slash video_path) as [r1 ->].
  destruct (Path_str_slash (thumbnail_path video_path output_dir)) as [r2 ->].
  reflexivity.
Qed.




(** ** The hosts of the examples *)

Lemma host_running_shows_everything tool : shows_everything (host_running tool).
Proof. now split. Qed.

Lemma host_running_stat_allowed tool : stat_allowed (host_running tool).
Proof. intros p s. reflexivity. Qed.

Lemma stuck_host_shows_everything : shows_everything stuck_host.
Proof. now split. Qed.

Lemma stuck_host_stat_allowed : stat_allowed stuck_host.
Proof. intros p s. reflexivity. Qed.

Lemma failing_host_exits : tool_exits failing_host.
Proof. intros argv s. discriminate. Qed.

Lemma failing_host_decodable : stderr_decodable failing_host.
Proof.
  intros argv s rc out err s' H. cbn in H. injection H as _ _ <- _.
  reflexivity.
Qed.

(** * The claims *)

(** C5. The thumbnail of a video is named [<stem>_thumbnail.jpg] and lies
    in the output directory: two videos with the same stem get the same
    artifact path whatever the host, the file system and the timestamp,
    and it is this path that the external program is given as its output
    whenever it is started, which it is unless the console refuses the
    first line of the extraction. *)
Theorem thumbnail_named_by_stem
  (host host' : Host) (video_path video_path' out : path)
  (timestamp timestamp' : option string) (s s' : node) :
  Path_stem video_path = Path_stem video_path' ->
  thumbnail_path video_path out =
    joinpath out (Path_stem video_path ++ "_thumbnail.jpg")%string /\
  thumbnail_path video_path' out = thumbnail_path video_path out /\
  map (fun argv => last argv "")
    (spawned (events (generate_thumbnail host video_path out timestamp s))) =
    (if accepted host (processing_line video_path)
     then [Path_str (joinpath out (Path_stem video_path ++ "_thumbnail.jpg")%string)]
     else []) /\
  map (fun argv => last argv "")
    (spawned (events (generate_thumbnail host' video_path' out timestamp' s'))) =
    (if accepted host' (processing_line video_path')
     then [Path_str (joinpath out (Path_stem video_path ++ "_thumbnail.jpg")%string)]
     else []).
Proof.
  intros E.
  assert (N : forall v, thumbnail_path v out =
                        joinpath out (Path_stem v ++ "_thumbnail.jpg")%string).
  { intros v. unfold thumbnail_path, thumbnail_name, fstr. now cbn [concat]. }
  split; [|split; [|split]].
  - apply N.
  - now rewrite !N, E.
  - rewrite generate_thumbnail_spawned.
    destruct (accepted host _); [|reflexivity]. cbn [map cmd last].
    now rewrite N.
  - rewrite generate_thumbnail_spawned.
    destruct (accepted host' _); [|reflexivity]. cbn [map cmd last].
    now rewrite N, E.
Qed.

Lemma thumbnail_named_by_stem_witness :
  let first := joinpath video_dir "clip.mp4" in
  let second := joinpath video_dir "clip.mov" in
  let s := tree [("clip.mp4", video "mp4")] in
  let s' := tree [("clip.mov", video "mov"); ("thumbnails", Dir [])] in
  Path_stem first = Path_stem second /\
  (thumbnail_path first output_dir =
     joinpath output_dir (Path_stem first ++ "_thumbnail.jpg")%string /\
   thumbnail_path second output_dir = thumbnail_path first output_dir /\
   map (fun argv => last argv "")
     (spawned (events (generate_thumbnail plain_host first output_dir None s))) =
     (if accepted plain_host (processing_line first)
      then [Path_str (joinpath output_dir (Path_stem first ++ "_thumbnail.jpg")%string)]
      else []) /\
   map (fun argv => last argv "")
     (spawned (events (generate_thumbnail latin1_host second output_dir
                         (Some "00:01:00") s'))) =
     (if accepted latin1_host (processing_line second)
      then [Path_str (joinpath output_dir (Path_stem first ++ "_thumbnail.jpg")%string)]
      else [])) /\
  accepted plain_host (processing_line first) = true /\
  Path_str (joinpath output_dir (Path_stem first ++ "_thumbnail.jpg")%string) =
    "/Users/Shared/Aerial Local/Additional Videos/thumbnails/clip_thumbnail.jpg".
Proof.
  cbv zeta. split; [reflexivity|]. split; [|split; reflexivity].
  apply thumbnail_named_by_stem. reflexivity.
Defined.

(** C6. A single extraction starts the external program at most once,
    and exactly once unless the console refuses its first line, with the
    input, the position (5 seconds unless another is given), one frame,
    the 1920x1080 scale filter, quality 2 and the derived output path,
    whatever the file system holds. *)
Theorem extraction_command
  (host : Host) (video_path out : path) (timestamp : option string) (s : node) :
  spawned (events (generate_thumbnail host video_path out timestamp s)) =
    (if accepted host (processing_line video_path) then
       [ [ "ffmpeg";
           "-i"; Path_str video_path;
           "-ss"; match timestamp with Some t => t | None => "00:00:05" end;
           "-vframes"; "1";
           "-vf"; "scale=1920:1080";
           "-q:v"; "2";
           Path_str (joinpath out (Path_stem video_path ++ "_thumbnail.jpg")%string) ] ]
     else []) /\
  seconds "00:00:05" = Some 5.
Proof.
  split; [|reflexivity]. rewrite generate_thumbnail_spawned.
  destruct (accepted host _); [|reflexivity].
  unfold cmd, thumbnail_path, thumbnail_name, fstr, default_timestamp.
  reflexivity.
Qed.

(** C4. When a run with candidates reaches its end, its last two lines
    are the closing line and [Generated n thumbnails in: <output
    directory>], where [n] is the number of candidates, which is also the
    number of extractions attempted: the text does not depend on how
    the extractions went. *)
Theorem summary_counts_candidates (host : Host) (s : node) :
  video_files s <> [] ->
  res (main host s) = Ok tt ->
  (exists before,
     printed (events (main host s)) =
     before ++
     [ fstr [LF; "✨ Thumbnail generation complete!"];
       fstr ["Generated "; str_nat (List.length (video_files s));
             " thumbnails in: "; Path_str output_dir] ]) /\
  List.length (spawned (events (main host s))) = List.length (video_files s).
Proof.
  intros N R. split.
  - revert R. rewrite main_run.
    pose proof (reset_video_files host s) as V.
    destruct (reset host s) as [[[[]|e|] s2] t2]; try discriminate.
    unfold fs_after in V. cbn [fst snd] in V.
    destruct (stat_fault host video_dir s2); [discriminate|]. rewrite V.
    destruct (video_files s) as [|v files]; [now contradiction N|].
    rewrite batch_stage_cons. cbv zeta.
    destruct (accepted host _); [|discriminate].
    destruct (accepted host _); [|discriminate].
    destruct (batch host (v :: files) s2) as [[[[]|e|] s3] t3];
      try discriminate.
    destruct (accepted host _); [|discriminate].
    destruct (accepted host _); [|discriminate].
    intros _. unfold events. cbn [snd].
    eexists. rewrite !app_assoc, printed_app. reflexivity.
  - pose proof (main_spawned host s) as M. rewrite R in M.
    now rewrite M, length_map.
Qed.

(** The witness is a run in which one of two extractions fails: one
    artifact, and a summary that counts two. *)
Lemma summary_counts_candidates_witness :
  let s := tree [("broken.mp4", File []); ("good.mp4", video "good")] in
  let o := main plain_host s in
  (video_files s <> [] /\ res o = Ok tt) /\
  lookup output_dir (fs_after o) =
    Some (Dir [("good_thumbnail.jpg", video "frame of good")]) /\
  ((exists before,
      printed (events o) =
      before ++
      [ fstr [LF; "✨ Thumbnail generation complete!"];
        fstr ["Generated "; str_nat (List.length (video_files s));
              " thumbnails in: "; Path_str output_dir] ]) /\
   List.length (spawned (events o)) = List.length (video_files s)) /\
  str_nat (List.length (video_files s)) = "2".
Proof.
  cbv zeta. split; [split; [discriminate | reflexivity]|].
  split; [reflexivity|]. split; [|reflexivity].
  apply summary_counts_candidates; [discriminate | reflexivity].
Defined.

(** C10. On a host whose extractor exits with status 1 and a Latin-1
    message, the single-file extraction does not return: the
    [UnicodeDecodeError] of [e.stderr.decode()] leaves it, after the
    first line of the error report. *)
Theorem extraction_raises_on_undecodable_diagnostics :
  let s := tree [("clip.mp4", video "clip")] in
  let o := generate_thumbnail latin1_host (joinpath video_dir "clip.mp4")
             output_dir None s in
  res o = Raise (UnicodeDecodeError "'utf-8' codec can't decode bytes") /\
  printed (events o) = [ fstr [LF; "Processing clip.mp4..."];
                         "❌ Error processing clip.mp4:" ] /\
  spawned (events o) = [main_cmd (joinpath video_dir "clip.mp4")].
Proof. vm_compute. repeat split. Qed.

(** C1. On that host, with two candidates, the failure of the first
    extraction ends the run: the exception leaves [main], the exit
    status is 1, and the second candidate is never attempted. *)
Theorem batch_aborts_on_undecodable_diagnostics :
  let s := tree [("a.mp4", video "a"); ("b.mp4", video "b")] in
  let o := main latin1_host s in
  video_files s = [joinpath video_dir "a.mp4"; joinpath video_dir "b.mp4"] /\
  res o = Raise (UnicodeDecodeError "'utf-8' codec can't decode bytes") /\
  exit_status (res o) = Some 1%Z /\
  spawned (events o) = [main_cmd (joinpath video_dir "a.mp4")].
Proof. vm_compute. repeat split. Qed.

(** ** The workspace reset *)

(** Without refusals of [stat] and of the creation, the reset reaches its
    end exactly when the output path holds a directory, or holds nothing
    below a video directory that exists. *)
Lemma reset_completes_without_refusals (host : Host) (s : node) :
  stat_allowed host ->
  (forall p s0, mkdir_fault host p s0 = None) ->
  reset_completes host s =
  match lookup output_dir s with
  | Some (Dir _) => true
  | Some (File _) => false
  | None => match lookup video_dir s with Some (Dir _) => true | _ => false end
  end.
Proof.
  intros St Mk. unfold reset_completes, mkdir_completes, is_directory, after_cleanup.
  rewrite !St, Mk. pose proof (lookup_output_dir s) as V.
  destruct (lookup output_dir s) as [[d|children]|] eqn:L; rewrite ?L;
    try reflexivity.
  destruct (rmtree_fault host output_dir children) as [[msg remaining]|];
    rewrite lookup_output_dir_update, ?lookup_video_dir_update;
    destruct (lookup video_dir s) as [[d|c]|]; try discriminate; reflexivity.
Qed.

(** C2 as the script has it, on a console that takes every line.  The
    deletion is attempted exactly when [exists] sees something at the
    output path; whatever goes wrong, a refused [stat], a path that is
    not a directory or a deletion that fails, is printed as an error and
    does not leave [cleanup_thumbnails]; a deletion that succeeds leaves
    nothing at or below the path; the run goes on to the creation in
    every case.  The creation leaves a directory at the output path on
    the hosts and file systems of [reset_completes], whether the
    directory was there or not; on the others it raises and the run ends
    with that exception.  Where the host refuses neither [stat] nor the
    creation, the others are the file systems with a file at the output
    path or without the video directory. *)
Theorem workspace_reset (host : Host) (s : node) :
  shows_everything host ->
  let o := cleanup_thumbnails host output_dir s in
  let cleaning :=
    fstr [LF; "🗑️  Cleaning up old thumbnails directory: "; Path_str output_dir] in
  let error := fun msg => fstr ["❌ Error cleaning up thumbnails: "; msg] in
  res o = Ok tt /\
  (In (EvRmtree output_dir) (events o) <->
   stat_fault host output_dir s = None /\ lookup output_dir s <> None) /\
  match stat_fault host output_dir s with
  | Some msg => printed (events o) = [error msg] /\ fs_after o = s
  | None =>
      match lookup output_dir s with
      | None => events o = [] /\ fs_after o = s
      | Some (File _) =>
          printed (events o) =
            [cleaning; error (rmtree_not_a_directory_msg output_dir)] /\
          fs_after o = s
      | Some (Dir children) =>
          match rmtree_fault host output_dir children with
          | None =>
              printed (events o) = [cleaning; "✅ Old thumbnails removed"] /\
              forall q : path, lookup (output_dir ++ q) (fs_after o) = None
          | Some (msg, remaining) =>
              printed (events o) = [cleaning; error msg] /\
              fs_after o = update output_dir (Some (Dir remaining)) s
          end
      end
  end /\
  In (EvMkdir output_dir) (events (main host s)) /\
  (if reset_completes host s
   then res (reset host s) = Ok tt /\
        lookup output_dir (fs_after (reset host s)) = Some (Dir (stale host s))
   else exists e, res (reset host s) = Raise e /\ res (main host s) = Raise e) /\
  (stat_allowed host -> (forall p s0, mkdir_fault host p s0 = None) ->
   reset_completes host s =
   match lookup output_dir s with
   | Some (Dir _) => true
   | Some (File _) => false
   | None => match lookup video_dir s with Some (Dir _) => true | _ => false end
   end).
Proof.
  intros C. cbv zeta.
  split; [apply (cleanup_thumbnails_returns host C)|].
  split; [|split; [|split; [|split]]].
  - rewrite cleanup_thumbnails_run. cbv zeta. unfold cleanup_failed.
    rewrite ?(shows_everything_accepted host _ C).
    destruct (stat_fault host output_dir s) as [msg|].
    + rewrite ?(shows_everything_accepted host _ C). unfold events. cbn [snd app In].
      split; [intros [H|[]]; discriminate H | intros [H _]; discriminate H].
    + destruct (lookup output_dir s) as [[d|children]|].
      * rewrite ?(shows_everything_accepted host _ C). unfold events.
        cbn [snd app In]. split; [now split | intros _; right; now left].
      * destruct (rmtree_fault host output_dir children) as [[msg remaining]|];
          rewrite ?(shows_everything_accepted host _ C); unfold events;
          cbn [snd app In]; (split; [now split | intros _; right; now left]).
      * unfold events. cbn [snd In]. split; [intros [] | now intros [_ H]].
  - rewrite cleanup_thumbnails_run. cbv zeta. unfold cleanup_failed.
    rewrite ?(shows_everything_accepted host _ C).
    destruct (stat_fault host output_dir s) as [msg|].
    + rewrite ?(shows_everything_accepted host _ C). now split.
    + pose proof (lookup_output_dir s) as V.
      destruct (lookup output_dir s) as [[d|children]|].
      * rewrite ?(shows_everything_accepted host _ C). now split.
      * destruct (rmtree_fault host output_dir children) as [[msg remaining]|];
          rewrite ?(shows_everything_accepted host _ C); (split; [reflexivity|]);
          [reflexivity|].
        intros q. apply lookup_below_absent. unfold fs_after. cbn [fst snd].
        rewrite lookup_output_dir_update.
        now destruct (lookup video_dir s) as [[?|?]|].
      * now split.
  - destruct (main_starts_with_reset host s) as [rest ->].
    apply in_or_app. left. apply (reset_reaches_mkdir host C).
  - destruct (reset_completes host s) eqn:R.
    + now apply reset_ok.
    + destruct (reset_fails host C s R) as [e E]. exists e.
      split; [exact E|]. now apply main_raises_with_reset.
  - apply reset_completes_without_refusals.
Qed.

(** The witness: a directory of thumbnails that the host does not let go
    of.  The failed deletion is reported, the creation finds the
    directory in place, and the reset is through with the old thumbnail
    still there. *)
Lemma workspace_reset_witness :
  let host := stuck_host in
  let s := tree [("clip.mp4", video "clip");
                 ("thumbnails", Dir [("stale_thumbnail.jpg", video "old")])] in
  let o := cleanup_thumbnails host output_dir s in
  let cleaning :=
    fstr [LF; "🗑️  Cleaning up old thumbnails directory: "; Path_str output_dir] in
  let error := fun msg => fstr ["❌ Error cleaning up thumbnails: "; msg] in
  shows_everything host /\
  (res o = Ok tt /\
   (In (EvRmtree output_dir) (events o) <->
    stat_fault host output_dir s = None /\ lookup output_dir s <> None) /\
   match stat_fault host output_dir s with
   | Some msg => printed (events o) = [error msg] /\ fs_after o = s
   | None =>
       match lookup output_dir s with
       | None => events o = [] /\ fs_after o = s
       | Some (File _) =>
           printed (events o) =
             [cleaning; error (rmtree_not_a_directory_msg output_dir)] /\
           fs_after o = s
       | Some (Dir children) =>
           match rmtree_fault host output_dir children with
           | None =>
               printed (events o) = [cleaning; "✅ Old thumbnails removed"] /\
               forall q : path, lookup (output_dir ++ q) (fs_after o) = None
           | Some (msg, remaining) =>
               printed (events o) = [cleaning; error msg] /\
               fs_after o = update output_dir (Some (Dir remaining)) s
           end
       end
   end /\
   In (EvMkdir output_dir) (events (main host s)) /\
   (if reset_completes host s
    then res (reset host s) = Ok tt /\
         lookup output_dir (fs_after (reset host s)) = Some (Dir (stale host s))
    else exists e, res (reset host s) = Raise e /\ res (main host s) = Raise e) /\
   (stat_allowed host -> (forall p s0, mkdir_fault host p s0 = None) ->
    reset_completes host s =
    match lookup output_dir s with
    | Some (Dir _) => true
    | Some (File _) => false
    | None => match lookup video_dir s with Some (Dir _) => true | _ => false end
    end)) /\
  printed (events o) =
    [ cleaning;
      "❌ Error cleaning up thumbnails: [Errno 13] Permission denied: 'stale_thumbnail.jpg'" ] /\
  reset_completes host s = true /\
  stale host s = [("stale_thumbnail.jpg", video "old")].
Proof.
  cbv zeta. split; [exact stuck_host_shows_everything|].
  split; [|repeat split].
  apply (workspace_reset stuck_host
           (tree [("clip.mp4", video "clip");
                  ("thumbnails", Dir [("stale_thumbnail.jpg", video "old")])])
           stuck_host_shows_everything).
Defined.

(** C2, where the claim fails.  First a plain file at the output path:
    the deletion error is caught and logged and the creation is
    attempted, but it raises [FileExistsError], which nothing catches:
    the run ends with status 1 and there is no output directory.  Then a
    video directory that cannot be searched: the refused [stat] of the
    cleanup is logged, and the creation raises [PermissionError] although
    the output directory is there. *)
Lemma reset_aborts_on_file_at_output_path :
  (let s := tree [("clip.mp4", video "clip"); ("thumbnails", video "notes")] in
   let o := main plain_host s in
   res (cleanup_thumbnails plain_host output_dir s) = Ok tt /\
   printed (events o) =
     [ fstr [LF; "🗑️  Cleaning up old thumbnails directory: "; Path_str output_dir];
       "❌ Error cleaning up thumbnails: [Errno 20] Not a directory: PosixPath('/Users/Shared/Aerial Local/Additional Videos/thumbnails')" ] /\
   In (EvMkdir output_dir) (events o) /\
   res o = Raise (OSError FileExistsError (errno_msg 17 output_dir)) /\
   exit_status (res o) = Some 1%Z /\
   lookup output_dir (fs_after o) = Some (video "notes") /\
   reset_completes plain_host s = false) /\
  (let s := tree [("clip.mp4", video "clip"); ("thumbnails", Dir [])] in
   let o := main locked_host s in
   res (cleanup_thumbnails locked_host output_dir s) = Ok tt /\
   printed (events o) =
     [ "❌ Error cleaning up thumbnails: [Errno 13] Permission denied: '/Users/Shared/Aerial Local/Additional Videos/thumbnails'" ] /\
   In (EvMkdir output_dir) (events o) /\
   res o = Raise (OSError PermissionError
                    "[Errno 13] Permission denied: '/Users/Shared/Aerial Local/Additional Videos/thumbnails'") /\
   exit_status (res o) = Some 1%Z /\
   spawned (events o) = [] /\
   reset_completes locked_host s = false).
Proof.
  vm_compute.
  repeat match goal with
         | |- _ /\ _ => split
         | |- _ = _ => reflexivity
         end;
    repeat (first [left; reflexivity | right]).
Qed.

(** ** Two videos with one stem *)

(** C3 as the script has it.  When the run returns, two candidates with
    the same stem have both been passed to the external program, with
    the same artifact path as the last argument of commands that carry
    no [-y]; and the script has written no file itself, so that the file
    system after the run, and with it what is at that path, is what the
    successive runs of the program made of the file system the reset
    left. *)
Theorem same_stem_same_artifact_path
  (host : Host) (s : node) (first second : path) :
  In first (video_files s) -> In second (video_files s) ->
  Path_stem first = Path_stem second ->
  res (main host s) = Ok tt ->
  In (main_cmd first) (spawned (events (main host s))) /\
  In (main_cmd second) (spawned (events (main host s))) /\
  last (main_cmd first) "" = Path_str (thumbnail_path first output_dir) /\
  last (main_cmd second) "" = Path_str (thumbnail_path first output_dir) /\
  existsb (String.eqb "-y") (main_cmd first) = false /\
  existsb (String.eqb "-y") (main_cmd second) = false /\
  fs_after (main host s) =
    tool_runs host (video_files s) (fs_after (reset host s)).
Proof.
  intros I1 I2 E R. pose proof (main_spawned host s) as M. rewrite R in M.
  assert (P : thumbnail_path second output_dir = thumbnail_path first output_dir).
  { unfold thumbnail_path, thumbnail_name. now rewrite E. }
  split; [rewrite M; now apply in_map|].
  split; [rewrite M; now apply in_map|].
  split; [reflexivity|].
  split; [unfold main_cmd, cmd; cbn [last]; now rewrite P|].
  split; [apply main_cmd_no_overwrite_flag|].
  split; [apply main_cmd_no_overwrite_flag|].
  now apply main_fs.
Qed.

Lemma same_stem_same_artifact_path_witness :
  let host := replacing_host in
  let s := tree [("clip.mov", video "mov"); ("clip.mp4", video "mp4")] in
  let first := joinpath video_dir "clip.mp4" in
  let second := joinpath video_dir "clip.mov" in
  (In first (video_files s) /\ In second (video_files s) /\
   Path_stem first = Path_stem second /\ res (main host s) = Ok tt) /\
  (In (main_cmd first) (spawned (events (main host s))) /\
   In (main_cmd second) (spawned (events (main host s))) /\
   last (main_cmd first) "" = Path_str (thumbnail_path first output_dir) /\
   last (main_cmd second) "" = Path_str (thumbnail_path first output_dir) /\
   existsb (String.eqb "-y") (main_cmd first) = false /\
   existsb (String.eqb "-y") (main_cmd second) = false /\
   fs_after (main host s) =
     tool_runs host (video_files s) (fs_after (reset host s))) /\
  lookup output_dir (fs_after (main host s)) =
    Some (Dir [("clip_thumbnail.jpg", video "frame of mov")]).
Proof.
  cbv zeta.
  assert (I1 : In (joinpath video_dir "clip.mp4")
                 (video_files (tree [("clip.mov", video "mov");
                                     ("clip.mp4", video "mp4")])))
    by (now left).
  assert (I2 : In (joinpath video_dir "clip.mov")
                 (video_files (tree [("clip.mov", video "mov");
                                     ("clip.mp4", video "mp4")])))
    by (right; now left).
  split; [repeat split; assumption|]. split; [|reflexivity].
  apply (same_stem_same_artifact_path replacing_host _ _ _ I1 I2);
    reflexivity.
Defined.

(** C3, where the claim fails: [clip.mp4] and [clip.mov] with an
    extractor that, like ffmpeg without [-y], does not replace an
    existing output file.  Both videos are processed, and the artifact is
    still the frame of the first: whether the extractor then exits with
    status 1 (an error is logged), exits with status 0 (a success is
    logged, for a file that was not written), or waits for an answer
    (the run never ends). *)
Lemma second_extraction_does_not_overwrite :
  let s := tree [("clip.mov", video "mov"); ("clip.mp4", video "mp4")] in
  let first := joinpath video_dir "clip.mp4" in
  let second := joinpath video_dir "clip.mov" in
  let artifact := thumbnail_path second output_dir in
  video_files s = [first; second] /\
  map Path_stem (video_files s) = ["clip"; "clip"] /\
  (let o := main plain_host s in
   res o = Ok tt /\
   spawned (events o) = [main_cmd first; main_cmd second] /\
   lookup artifact (fs_after o) = Some (video "frame of mp4") /\
   lookup output_dir (fs_after o) =
     Some (Dir [("clip_thumbnail.jpg", video "frame of mp4")]) /\
   In "❌ Error processing clip.mov:" (printed (events o))) /\
  (let o := main silent_host s in
   res o = Ok tt /\
   spawned (events o) = [main_cmd first; main_cmd second] /\
   lookup artifact (fs_after o) = Some (video "frame of mp4") /\
   ~ In "❌ Error processing clip.mov:" (printed (events o))) /\
  (let o := main asking_host s in
   res o = Blocked /\
   exit_status (res o) = None /\
   spawned (events o) = [main_cmd first; main_cmd second] /\
   lookup artifact (fs_after o) = Some (video "frame of mp4")).
Proof.
  vm_compute.
  repeat match goal with
         | |- _ /\ _ => split
         | |- _ = _ => reflexivity
         end.
  - do 5 right. now left.
  - intros H.
    repeat match goal with
           | H : _ \/ _ |- _ => destruct H as [H | H]
           | H : False |- _ => contradiction H
           | H : _ = _ |- _ => discriminate H
           end.
Qed.

(** With an extractor that does replace, the same run leaves the frame
    of the second. *)
Example replacing_extractor_overwrites :
  let s := tree [("clip.mov", video "mov"); ("clip.mp4", video "mp4")] in
  lookup output_dir (fs_after (main replacing_host s)) =
    Some (Dir [("clip_thumbnail.jpg", video "frame of mov")]).
Proof. reflexivity. Qed.

(** ** The order of processing *)

(** C7. The candidates are the [*.mp4] entries in enumeration order
    followed by the [*.mov] entries in enumeration order.  A run starts
    the external program for them in that order: for all of them when it
    returns, for the first few when it does not; and it does return
    when the console shows everything, no [stat] is refused, the program
    exits with diagnostics that decode and the reset is through.  The
    order is not the order of the names: in a directory enumerated by
    name, [b.mp4] is processed before [a.mov]. *)
Theorem processing_order (host : Host) (s : node) :
  match lookup video_dir s with
  | Some (Dir children) =>
      video_files s =
      map (joinpath video_dir)
        (filter (fnmatch "*.mp4") (map fst children) ++
         filter (fnmatch "*.mov") (map fst children))
  | _ => video_files s = []
  end /\
  match res (main host s) with
  | Ok _ => spawned (events (main host s)) = map main_cmd (video_files s)
  | _ =>
      exists k,
        spawned (events (main host s)) = map main_cmd (firstn k (video_files s))
  end /\
  (shows_everything host -> stat_allowed host ->
   tool_exits host -> stderr_decodable host ->
   reset_completes host s = true ->
   res (main host s) = Ok tt /\
   spawned (events (main host s)) = map main_cmd (video_files s)) /\
  (let entries := [("a.mov", video "a"); ("b.mp4", video "b")] in
   let o := main plain_host (tree entries) in
   sorted (map fst entries) = true /\
   res o = Ok tt /\
   spawned (events o) =
     [main_cmd (joinpath video_dir "b.mp4"); main_cmd (joinpath video_dir "a.mov")] /\
   sorted ["b.mp4"; "a.mov"] = false).
Proof.
  split; [|split; [|split]].
  - unfold video_files, glob.
    destruct (lookup video_dir s) as [[d|children]|]; try reflexivity.
    now rewrite map_app.
  - apply main_spawned.
  - intros C St X D R. pose proof (main_completes host s C St X D R) as O.
    split; [exact O|]. pose proof (main_spawned host s) as M.
    now rewrite O in M.
  - cbv zeta. repeat split; reflexivity.
Qed.

(** The witness: three candidates on a host whose extractor fails each
    time; the [*.mp4] entries come first, each group in the order of the
    directory. *)
Lemma processing_order_witness :
  let host := failing_host in
  let s := tree [("z.mov", video "z"); ("b.mp4", video "b"); ("a.mp4", video "a")] in
  (shows_everything host /\ stat_allowed host /\ tool_exits host /\
   stderr_decodable host /\ reset_completes host s = true) /\
  (res (main host s) = Ok tt /\
   spawned (events (main host s)) = map main_cmd (video_files s)) /\
  map Path_name (video_files s) = ["b.mp4"; "a.mp4"; "z.mov"].
Proof.
  cbv zeta. split; [|split; [|reflexivity]].
  - split; [apply host_running_shows_everything|].
    split; [apply host_running_stat_allowed|].
    split; [exact failing_host_exits|].
    split; [exact failing_host_decodable | reflexivity].
  - apply (processing_order failing_host).
    + apply host_running_shows_everything.
    + apply host_running_stat_allowed.
    + exact failing_host_exits.
    + exact failing_host_decodable.
    + reflexivity.
Defined.

(** ** A run without candidates *)

(** C8 as the script has it, on a console that takes every line and a
    host that refuses no [stat].  Without candidates, a run whose reset
    is through prints that no video files were found and returns with
    status 0: nothing follows the message, no process is started, and
    the file system stays as the reset left it, with an output directory
    that holds what a failed deletion left in it, and nothing if the
    deletion went well or there was nothing to delete.  A run whose reset
    is not through ends with an exception and status 1, and never prints
    the message. *)
Theorem no_candidates_run (host : Host) (s : node) :
  shows_everything host -> stat_allowed host ->
  video_files s = [] ->
  if reset_completes host s then
    main host s =
      (Ok tt, fs_after (reset host s),
       events (reset host s) ++ [EvPrint "No video files found in directory!"]) /\
    exit_status (res (main host s)) = Some 0%Z /\
    spawned (events (main host s)) = [] /\
    lookup output_dir (fs_after (main host s)) =
      Some (Dir match lookup output_dir s with
                | Some (Dir children) =>
                    match rmtree_fault host output_dir children with
                    | Some (_, remaining) => remaining
                    | None => []
                    end
                | _ => []
                end)
  else
    (exists e, res (main host s) = Raise e) /\
    exit_status (res (main host s)) = Some 1%Z /\
    spawned (events (main host s)) = [] /\
    ~ In "No video files found in directory!" (printed (events (main host s))).
Proof.
  intros C St N. destruct (reset_completes host s) eqn:Rc.
  - destruct (reset_ok host C s Rc) as [R L].
    rewrite (stale_run host s (St _ _)) in L.
    assert (E : main host s =
      (Ok tt, fs_after (reset host s),
       events (reset host s) ++ [EvPrint "No video files found in directory!"])).
    { rewrite main_run. pose proof (reset_video_files host s) as V.
      destruct (reset host s) as [[r s2] t2]. unfold res, fs_after, events in *.
      cbn [fst snd] in *. subst r. rewrite St, V, N. unfold batch_stage.
      now rewrite print_run, (shows_everything_accepted host _ C). }
    split; [exact E|]. rewrite E. unfold res, events, fs_after. cbn [fst snd].
    split; [reflexivity|]. split; [|exact L].
    rewrite spawned_app. fold (events (reset host s)).
    now rewrite reset_spawned.
  - destruct (reset_fails host C s Rc) as [e E].
    rewrite (main_is_reset_when_it_raises host s e E), E.
    split; [now exists e|]. split; [reflexivity|].
    split; [apply reset_spawned | apply reset_does_not_report_candidates].
Qed.

(** The witness: a directory without videos, and thumbnails of an
    earlier run that the host does not let go of. *)
Lemma no_candidates_run_witness :
  let host := stuck_host in
  let s := tree [("notes.txt", video "notes"); ("CLIP.MP4", video "clip");
                 ("thumbnails", Dir [("stale_thumbnail.jpg", video "old")])] in
  (shows_everything host /\ stat_allowed host /\ video_files s = []) /\
  (if reset_completes host s then
     main host s =
       (Ok tt, fs_after (reset host s),
        events (reset host s) ++ [EvPrint "No video files found in directory!"]) /\
     exit_status (res (main host s)) = Some 0%Z /\
     spawned (events (main host s)) = [] /\
     lookup output_dir (fs_after (main host s)) =
       Some (Dir match lookup output_dir s with
                 | Some (Dir children) =>
                     match rmtree_fault host output_dir children with
                     | Some (_, remaining) => remaining
                     | None => []
                     end
                 | _ => []
                 end)
   else
     (exists e, res (main host s) = Raise e) /\
     exit_status (res (main host s)) = Some 1%Z /\
     spawned (events (main host s)) = [] /\
     ~ In "No video files found in directory!" (printed (events (main host s)))) /\
  reset_completes host s = true.
Proof.
  cbv zeta.
  split; [split; [exact stuck_host_shows_everything
                 |split; [exact stuck_host_stat_allowed | reflexivity]]|].
  split; [|reflexivity].
  apply (no_candidates_run stuck_host);
    [exact stuck_host_shows_everything | exact stuck_host_stat_allowed
    | reflexivity].
Defined.

(** C8, where the claim fails, both times in a video directory without
    candidates.  With a plain file named [thumbnails] the creation
    raises: the run ends with status 1 and the message is never printed.
    With thumbnails that cannot be deleted the run prints the message and
    returns, and the output directory still holds the old thumbnail. *)
Lemma no_candidates_run_not_always_clean :
  (let s := tree [("notes.txt", video "notes"); ("thumbnails", video "notes")] in
   let o := main plain_host s in
   video_files s = [] /\
   res o = Raise (OSError FileExistsError (errno_msg 17 output_dir)) /\
   exit_status (res o) = Some 1%Z /\
   ~ In "No video files found in directory!" (printed (events o))) /\
  (let s := tree [("notes.txt", video "notes");
                  ("thumbnails", Dir [("stale_thumbnail.jpg", video "old")])] in
   let o := main stuck_host s in
   video_files s = [] /\
   res o = Ok tt /\
   In "No video files found in directory!" (printed (events o)) /\
   lookup output_dir (fs_after o) =
     Some (Dir [("stale_thumbnail.jpg", video "old")])).
Proof.
  vm_compute.
  repeat match goal with
         | |- _ /\ _ => split
         | |- _ = _ => reflexivity
         end.
  - intros H.
    repeat match goal with
           | H : _ \/ _ |- _ => destruct H as [H | H]
           | H : False |- _ => contradiction H
           | H : _ = _ |- _ => discriminate H
           end.
  - do 2 right. now left.
Qed.

(** ** The candidates *)




(** * Further properties of the script *)

(** ** Stems and artifact names *)

Lemma rfind_dot_last (front e : string) :
  rfind_dot e = None ->
  rfind_dot (front ++ String "."%char e)%string = Some (String.length front).
Proof.
  intros H. induction front as [|c front IH]; simpl.
  - now rewrite H.
  - now rewrite IH.
Qed.

Lemma substring_front (a b : string) :
  substring 0 (String.length a) (a ++ b)%string = a.
Proof.
  induction a as [|c a IH]; simpl; [now destruct b | now rewrite IH].
Qed.

Lemma Path_name_joinpath (d : path) (name : string) :
  Path_name (joinpath d name) = name.
Proof. apply last_last. Qed.

(** The stem of [front.e], where [e] has no dot and neither part is
    empty, is [front]. *)
Lemma stem_of_dotted_name (d : path) (front e : string) :
  front <> ""%string -> e <> ""%string -> rfind_dot e = None ->
  Path_stem (joinpath d (front ++ String "."%char e)%string) = front.
Proof.
  intros F E H. unfold Path_stem. rewrite Path_name_joinpath.
  cbv zeta. rewrite (rfind_dot_last _ _ H).
  rewrite string_app_length. cbn [String.length].
  assert (0 < String.length front) by (destruct front; [congruence | simpl; lia]).
  assert (0 < String.length e) by (destruct e; [congruence | simpl; lia]).
  replace ((0 <? String.length front)%nat) with true
    by (symmetry; apply Nat.ltb_lt; lia).
  replace ((String.length front <? String.length front + S (String.length e) - 1)%nat)
    with true by (symmetry; apply Nat.ltb_lt; lia).
  cbn [andb]. apply substring_front.
Qed.

(** A name that is nothing but a suffix, such as [.mp4], is its own stem. *)
Lemma stem_of_bare_suffix (d : path) (e : string) :
  rfind_dot e = None ->
  Path_stem (joinpath d (String "."%char e)) = String "."%char e.
Proof.
  intros H. unfold Path_stem. rewrite Path_name_joinpath. cbv zeta.
  pose proof (rfind_dot_last "" e H) as R. cbn [String.append] in R.
  rewrite R. reflexivity.
Qed.

(** X1. The artifact of a candidate [front.mp4] or [front.mov] with a
    non-empty [front] is named [front_thumbnail.jpg]; the artifact of an
    entry named just [.mp4] or [.mov] keeps the whole name. *)
Theorem candidate_artifact_name (d : path) (front ext : string) :
  front <> ""%string ->
  ext = ".mp4" \/ ext = ".mov" ->
  thumbnail_name (joinpath d (front ++ ext)%string) =
    (front ++ "_thumbnail.jpg")%string /\
  thumbnail_name (joinpath d ext) = (ext ++ "_thumbnail.jpg")%string.
Proof.
  intros F [-> | ->]; unfold thumbnail_name, fstr; cbn [concat]; split.
  - now rewrite (stem_of_dotted_name d front "mp4").
  - now rewrite (stem_of_bare_suffix d "mp4").
  - now rewrite (stem_of_dotted_name d front "mov").
  - now rewrite (stem_of_bare_suffix d "mov").
Qed.

Lemma candidate_artifact_name_witness :
  ("beach"%string <> ""%string /\ (".mp4" = ".mp4" \/ ".mp4" = ".mov")) /\
  (thumbnail_name (joinpath video_dir ("beach" ++ ".mp4")%string) =
     ("beach" ++ "_thumbnail.jpg")%string /\
   thumbnail_name (joinpath video_dir ".mp4") =
     (".mp4" ++ "_thumbnail.jpg")%string).
Proof.
  split; [split; [discriminate | now left]|].
  apply candidate_artifact_name; [discriminate | now left].
Defined.

(** X2. Two candidates with non-empty base names are given the same
    artifact path exactly when their base names are equal: of two
    candidates with one extension none overwrites the other, and
    [clip.mp4] meets [clip.mov]. *)
Theorem artifact_collision_iff_same_base
  (d out : path) (front1 front2 ext1 ext2 : string) :
  front1 <> ""%string -> front2 <> ""%string ->
  ext1 = ".mp4" \/ ext1 = ".mov" ->
  ext2 = ".mp4" \/ ext2 = ".mov" ->
  (thumbnail_path (joinpath d (front1 ++ ext1)%string) out =
   thumbnail_path (joinpath d (front2 ++ ext2)%string) out <->
   front1 = front2).
Proof.
  intros F1 F2 E1 E2.
  assert (S1 : Path_stem (joinpath d (front1 ++ ext1)%string) = front1).
  { destruct E1 as [-> | ->];
      [apply (stem_of_dotted_name d front1 "mp4")
      |apply (stem_of_dotted_name d front1 "mov")];
      (assumption || discriminate || reflexivity). }
  assert (S2 : Path_stem (joinpath d (front2 ++ ext2)%string) = front2).
  { destruct E2 as [-> | ->];
      [apply (stem_of_dotted_name d front2 "mp4")
      |apply (stem_of_dotted_name d front2 "mov")];
      (assumption || discriminate || reflexivity). }
  unfold thumbnail_path, thumbnail_name, fstr. cbn [concat].
  rewrite S1, S2. split.
  - intros H. apply joinpath_inj in H.
    now destruct (string_app_inv_length _ _ _ _ H eq_refl).
  - now intros ->.
Qed.

Lemma artifact_collision_iff_same_base_witness :
  (("clip"%string <> ""%string /\ "clip"%string <> ""%string) /\
   (".mp4" = ".mp4" \/ ".mp4" = ".mov") /\ (".mov" = ".mp4" \/ ".mov" = ".mov")) /\
  (thumbnail_path (joinpath video_dir ("clip" ++ ".mp4")%string) output_dir =
   thumbnail_path (joinpath video_dir ("clip" ++ ".mov")%string) output_dir <->
   "clip"%string = "clip"%string).
Proof.
  split; [split; [split; discriminate | split; [now left | now right]]|].
  apply artifact_collision_iff_same_base;
    [discriminate | discriminate | now left | now right].
Defined.

(** ** What the reset leaves alone *)

Lemma assoc_set_child_other (c c' : string) (v : option node) children :
  c <> c' -> assoc c' (set_child c v children) = assoc c' children.
Proof.
  intros N. induction children as [|[c0 n0] rest IH]; simpl.
  - destruct v; simpl; [|reflexivity].
    destruct (String.eqb_spec c' c); [congruence | reflexivity].
  - destruct (String.eqb_spec c c0) as [->|Nc].
    + destruct (String.eqb_spec c' c0) as [->|Nc']; [congruence|].
      destruct v; simpl; [|exact IH].
      destruct (String.eqb_spec c' c0); [congruence | reflexivity].
    + simpl. now rewrite IH.
Qed.

(** An update of the entry [c] of a directory is not seen through
    another entry of that directory. *)
Lemma lookup_update_sibling (p q : path) (c c' : string) (v : option node)
  (n : node) :
  c <> c' ->
  lookup (p ++ c' :: q) (update (p ++ [c]) v n) = lookup (p ++ c' :: q) n.
Proof.
  intros N. rewrite !lookup_app, lookup_update_parent.
  destruct (lookup p n) as [[d|children]|]; try reflexivity.
  cbn [lookup]. now rewrite assoc_set_child_other.
Qed.

(** X3. The reset changes nothing outside the output directory: every
    other entry of the video directory, and everything below it, is after
    the reset what it was before, whether the deletion and the creation
    succeed or fail. *)
Theorem reset_leaves_other_entries
  (host : Host) (s : node) (name : string) (q : path) :
  name <> "thumbnails" ->
  lookup (video_dir ++ name :: q) (fs_after (reset host s)) =
  lookup (video_dir ++ name :: q) s.
Proof.
  intros N. destruct (reset_effect host s) as [[vs ->] _]. revert s.
  induction vs as [|v vs IH]; intros s; [reflexivity|].
  cbn [fold_left]. rewrite IH. apply lookup_update_sibling. congruence.
Qed.

Lemma reset_leaves_other_entries_witness :
  let s := tree [("beach.mp4", video "beach");
                 ("thumbnails", Dir [("stale_thumbnail.jpg", video "old")])] in
  "beach.mp4"%string <> "thumbnails"%string /\
  lookup (video_dir ++ "beach.mp4" :: []) (fs_after (reset plain_host s)) =
  lookup (video_dir ++ "beach.mp4" :: []) s.
Proof.
  split; [discriminate|]. apply reset_leaves_other_entries. discriminate.
Defined.

(** X4. The output directory is never a candidate, and the candidates
    found after the reset are those of the file system the run started
    on. *)
Theorem candidates_unchanged_by_reset (host : Host) (s : node) :
  video_files (fs_after (reset host s)) = video_files s /\
  ~ In output_dir (video_files s) /\
  ~ In output_dir (video_files (fs_after (reset host s))).
Proof.
  assert (O : forall s0, ~ In output_dir (video_files s0)).
  { intros s0 I. unfold video_files in I.
    apply in_app_iff in I as [I | I]; apply glob_spec in I
      as (ch & name & _ & _ & F & E); apply joinpath_inj in E; subst name;
      discriminate. }
  split; [apply reset_video_files|]. split; apply O.
Qed.

(** ** Which errors leave the run *)

Lemma refusal_is_no_called_process_error (host : Host) (line : string) :
  is_called_process_error (refusal host line) = false.
Proof. unfold refusal. now destruct (stdout_closed host). Qed.

Lemma generate_thumbnail_raises (host : Host) (video_path out : path)
  (timestamp : option string) (s : node) (e : exn) :
  res (generate_thumbnail host video_path out timestamp s) = Raise e ->
  is_called_process_error e = false.
Proof.
  rewrite generate_thumbnail_run. cbv zeta. unfold unexpected.
  repeat match goal with
         | |- context [if accepted ?h ?l then _ else _] =>
             destruct (accepted h l)
         | |- context [match run_process ?h ?c ?x with _ => _ end] =>
             destruct (run_process h c x)
         | |- context [if (?a =? 0)%Z then _ else _] =>
             destruct (a =? 0)%Z
         | |- context [if utf8_valid ?e then _ else _] =>
             destruct (utf8_valid e)
         end;
    unfold res; cbn [fst]; intros H; try discriminate H; injection H as <-;
    first [reflexivity | apply refusal_is_no_called_process_error].
Qed.

Lemma batch_raises (host : Host) (files : list path) (s : node) (e : exn) :
  res (batch host files s) = Raise e -> is_called_process_error e = false.
Proof.
  revert s. induction files as [|v files IH]; intros s; [discriminate|].
  rewrite batch_cons.
  pose proof (generate_thumbnail_raises host v output_dir None s) as G.
  destruct (generate_thumbnail host v output_dir None s) as [[[[]|e1|] s1] t1].
  - specialize (IH s1). destruct (batch host files s1) as [[r s2] t2].
    exact IH.
  - unfold res in *. cbn [fst] in *. intros H. injection H as <-. now apply G.
  - discriminate.
Qed.

Lemma batch_stage_raises (host : Host) (files : list path) (s : node) (e : exn) :
  res (batch_stage host files s) = Raise e -> is_called_process_error e = false.
Proof.
  destruct files as [|v rest].
  - unfold batch_stage. rewrite print_run. destruct (accepted host _);
      [discriminate|]. unfold res. cbn [fst]. intros H. injection H as <-.
    apply refusal_is_no_called_process_error.
  - rewrite batch_stage_cons. cbv zeta.
    pose proof (batch_raises host (v :: rest) s) as B.
    repeat match goal with
           | |- context [if accepted ?h ?l then _ else _] =>
               destruct (accepted h l)
           | |- context [match batch ?h ?f ?x with _ => _ end] =>
               destruct (batch h f x) as [[[[]|?|] ?] ?]
           end;
      unfold res in *; cbn [fst] in *; intros H; try discriminate H;
      first [ now apply B
            | injection H as <-; apply refusal_is_no_called_process_error ].
Qed.

Lemma reset_raises (host : Host) (s : node) (e : exn) :
  res (reset host s) = Raise e -> is_called_process_error e = false.
Proof.
  rewrite reset_run, cleanup_thumbnails_run. cbv zeta. unfold cleanup_failed.
  assert (M : forall s1 t1,
    res (let '(r, s2, t2) := Path_mkdir_exist_ok host output_dir s1 in
         (r, s2, t1 ++ t2)) = Raise e -> is_called_process_error e = false).
  { intros s1 t1. rewrite Path_mkdir_exist_ok_run. unfold mkdir_swallowed.
    repeat match goal with
           | |- context [match stat_fault ?h ?p ?x with _ => _ end] =>
               destruct (stat_fault h p x)
           | |- context [match mkdir_fault ?h ?p ?x with _ => _ end] =>
               destruct (mkdir_fault h p x)
           | |- context [match lookup ?p ?x with _ => _ end] =>
               destruct (lookup p x) as [[?|?]|]
           end;
      unfold res; cbn [fst]; intros H; try discriminate H; now injection H as <-. }
  repeat match goal with
         | |- context [match stat_fault ?h ?p ?x with _ => _ end] =>
             destruct (stat_fault h p x)
         | |- context [match lookup ?p ?x with _ => _ end] =>
             destruct (lookup p x) as [[?|?]|]
         | |- context [match rmtree_fault ?h ?p ?x with _ => _ end] =>
             destruct (rmtree_fault h p x) as [[? ?]|]
         | |- context [if accepted ?h ?l then _ else _] =>
             destruct (accepted h l)
         end;
    first [ apply M
          | unfold res; cbn [fst]; intros H; injection H as <-;
            apply refusal_is_no_called_process_error ].
Qed.

(** On a console that shows everything, what leaves the reset is an
    [OSError] of the creation. *)
Lemma reset_raises_oserror (host : Host) (s : node) (e : exn) :
  shows_everything host ->
  res (reset host s) = Raise e -> exists kind msg, e = OSError kind msg.
Proof.
  intros C. rewrite reset_run.
  destruct (cleanup_thumbnails_returns host C s) as [R _].
  destruct (cleanup_thumbnails host output_dir s) as [[r1 s1] t1].
  unfold res in R. cbn [fst] in R. subst r1.
  rewrite Path_mkdir_exist_ok_run. unfold mkdir_swallowed.
  repeat match goal with
         | |- context [match stat_fault ?h ?p ?x with _ => _ end] =>
             destruct (stat_fault h p x)
         | |- context [match mkdir_fault ?h ?p ?x with _ => _ end] =>
             destruct (mkdir_fault h p x)
         | |- context [match lookup ?p ?x with _ => _ end] =>
             destruct (lookup p x) as [[?|?]|]
         end;
    unfold res; cbn [fst]; intros H; try discriminate H;
    injection H as <-; now eexists _, _.
Qed.

(** On a console that shows everything, what leaves the loop is the
    [UnicodeDecodeError] of a failed extraction's diagnostics. *)
Lemma batch_raises_decode_error (host : Host) (files : list path) (s : node)
  (e : exn) :
  shows_everything host ->
  res (batch host files s) = Raise e ->
  e = UnicodeDecodeError "'utf-8' codec can't decode bytes".
Proof.
  intros C. revert s. induction files as [|v files IH]; intros s; [discriminate|].
  rewrite batch_cons.
  pose proof (generate_thumbnail_run host v output_dir None s) as G.
  destruct (generate_thumbnail host v output_dir None s) as [[[[]|e1|] s1] t1].
  - specialize (IH s1). destruct (batch host files s1) as [[r s2] t2].
    exact IH.
  - unfold res. cbn [fst]. intros H. injection H as <-.
    cbv zeta in G. unfold unexpected in G.
    rewrite !(shows_everything_accepted host _ C) in G.
    destruct (run_process host _ s) as [rc out' err s'|msg|];
      rewrite ?(shows_everything_accepted host _ C) in G; try discriminate G.
    destruct (rc =? 0)%Z; [discriminate|].
    destruct (utf8_valid err); [discriminate|]. now injection G.
  - discriminate.
Qed.

(** X5. No [CalledProcessError] ever leaves [main], whatever the host.
    On a console that shows everything and a host that refuses no
    [stat], only two kinds of exception leave it: an [OSError] of the
    creation of the output directory, when the reset cannot complete,
    and otherwise the [UnicodeDecodeError] of a failed extraction's
    diagnostics. *)
Theorem errors_that_leave_main (host : Host) (s : node) (e : exn) :
  res (main host s) = Raise e ->
  is_called_process_error e = false /\
  (shows_everything host -> stat_allowed host ->
   (reset_completes host s = false /\ exists kind msg, e = OSError kind msg) \/
   (reset_completes host s = true /\
    e = UnicodeDecodeError "'utf-8' codec can't decode bytes")).
Proof.
  intros H. split.
  - revert H. rewrite main_run. pose proof (reset_raises host s) as R.
    destruct (reset host s) as [[[[]|e'|] s2] t2]; unfold res in *;
      cbn [fst] in *; try discriminate.
    + destruct (stat_fault host video_dir s2);
        [intros H; now injection H as <-|].
      pose proof (batch_stage_raises host (video_files s2) s2 e) as B.
      destruct (batch_stage host (video_files s2) s2) as [[r s3] t3].
      exact B.
    + intros H. injection H as <-. now apply R.
  - intros C St. destruct (reset_completes host s) eqn:Rc.
    + right. split; [reflexivity|]. revert H. rewrite main_run.
      destruct (reset_ok host C s Rc) as [R _].
      destruct (reset host s) as [[r s2] t2]. unfold res in R. cbn [fst] in R.
      subst r. rewrite St. destruct (video_files s2) as [|v files].
      * unfold batch_stage.
        now rewrite print_run, (shows_everything_accepted host _ C).
      * rewrite batch_stage_cons. cbv zeta.
        rewrite !(shows_everything_accepted host _ C).
        pose proof (batch_raises_decode_error host (v :: files) s2 e C) as B.
        destruct (batch host (v :: files) s2) as [[[[]|e'|] s3] t3];
          rewrite ?(shows_everything_accepted host _ C); try discriminate.
        exact B.
    + left. split; [reflexivity|].
      destruct (reset_fails host C s Rc) as [e' R].
      rewrite (main_raises_with_reset host s e' R) in H. injection H as <-.
      now apply (reset_raises_oserror host s).
Qed.

Lemma errors_that_leave_main_witness :
  let s := tree [("a.mp4", video "a")] in
  let e := UnicodeDecodeError "'utf-8' codec can't decode bytes" in
  res (main latin1_host s) = Raise e /\
  (is_called_process_error e = false /\
   (shows_everything latin1_host -> stat_allowed latin1_host ->
    (reset_completes latin1_host s = false /\ exists kind msg, e = OSError kind msg) \/
    (reset_completes latin1_host s = true /\
     e = UnicodeDecodeError "'utf-8' codec can't decode bytes"))) /\
  shows_everything latin1_host /\ stat_allowed latin1_host.
Proof.
  cbv zeta. split; [reflexivity|]. split.
  - apply (errors_that_leave_main latin1_host (tree [("a.mp4", video "a")])).
    reflexivity.
  - split; [apply host_running_shows_everything | apply host_running_stat_allowed].
Defined.

(** X6. On a console that shows everything, a single extraction raises
    exactly when the external program exited with a non-zero status and
    diagnostics that are not UTF-8, and what it raises then is the
    [UnicodeDecodeError]; it never comes back when the program never
    exits; in every other case (exit 0, a failure with diagnostics that
    decode, a program that cannot be started) it returns. *)
Theorem extraction_outcome
  (host : Host) (video_path out : path) (timestamp : option string) (s : node) :
  shows_everything host ->
  res (generate_thumbnail host video_path out timestamp s) =
  match run_process host
          (cmd video_path out
             (match timestamp with Some t => t | None => default_timestamp end)) s
  with
  | Hangs => Blocked
  | SpawnFailed _ => Ok tt
  | Exited returncode _ stderr _ =>
      if (returncode =? 0)%Z || utf8_valid stderr then Ok tt
      else Raise (UnicodeDecodeError "'utf-8' codec can't decode bytes")
  end.
Proof.
  intros C. rewrite generate_thumbnail_run. cbv zeta. unfold unexpected.
  rewrite !(shows_everything_accepted host _ C).
  destruct (run_process host _ s) as [rc out' err s'|msg|];
    rewrite ?(shows_everything_accepted host _ C); try reflexivity.
  destruct (rc =? 0)%Z; [reflexivity|]. cbn [orb].
  now destruct (utf8_valid err).
Qed.

Lemma extraction_outcome_witness :
  let v := joinpath video_dir "clip.mp4" in
  let s := tree [("clip.mp4", video "clip"); ("thumbnails", Dir [])] in
  shows_everything latin1_host /\
  res (generate_thumbnail latin1_host v output_dir None s) =
    match run_process latin1_host (cmd v output_dir default_timestamp) s with
    | Hangs => Blocked
    | SpawnFailed _ => Ok tt
    | Exited returncode _ stderr _ =>
        if (returncode =? 0)%Z || utf8_valid stderr then Ok tt
        else Raise (UnicodeDecodeError "'utf-8' codec can't decode bytes")
    end.
Proof.
  cbv zeta. split; [apply host_running_shows_everything|].
  apply (extraction_outcome latin1_host (joinpath video_dir "clip.mp4")
           output_dir None).
  apply host_running_shows_everything.
Defined.

(** ** Runs in which extractions fail *)

(** X7. With a console that shows everything, no [stat] refused, a
    program that exits and diagnostics that decode, failed extractions
    do not stop the run: it reaches every candidate and ends with status
    0 once the reset is through. *)
Theorem failures_isolated_when_diagnostics_decode (host : Host) (s : node) :
  shows_everything host -> stat_allowed host ->
  tool_exits host -> stderr_decodable host ->
  reset_completes host s = true ->
  res (main host s) = Ok tt /\
  exit_status (res (main host s)) = Some 0%Z /\
  spawned (events (main host s)) = map main_cmd (video_files s).
Proof.
  intros C St X D Rc. pose proof (main_completes host s C St X D Rc) as R.
  split; [exact R|]. split; [now rewrite R|].
  pose proof (main_spawned host s) as M. now rewrite R in M.
Qed.

(** A run in which both extractions fail, with diagnostics that
    decode. *)
Lemma failures_isolated_when_diagnostics_decode_witness :
  let host := failing_host in
  let s := tree [("a.mp4", video "a"); ("b.mov", video "b")] in
  (shows_everything host /\ stat_allowed host /\ tool_exits host /\
   stderr_decodable host /\ reset_completes host s = true) /\
  (res (main host s) = Ok tt /\
   exit_status (res (main host s)) = Some 0%Z /\
   spawned (events (main host s)) = map main_cmd (video_files s)) /\
  lookup output_dir (fs_after (main host s)) = Some (Dir []).
Proof.
  cbv zeta. split; [|split; [|reflexivity]].
  - split; [apply host_running_shows_everything|].
    split; [apply host_running_stat_allowed|].
    split; [exact failing_host_exits|].
    split; [exact failing_host_decodable | reflexivity].
  - apply (failures_isolated_when_diagnostics_decode failing_host).
    + apply host_running_shows_everything.
    + apply host_running_stat_allowed.
    + exact failing_host_exits.
    + exact failing_host_decodable.
    + reflexivity.
Defined.

Lemma tool_runs_without_tool (host : Host) (files : list path) (s : node) :
  (forall argv s0, exists msg, run_process host argv s0 = SpawnFailed msg) ->
  tool_runs host files s = s.
Proof.
  intros T. induction files as [|v files IH]; [reflexivity|]. cbn [tool_runs].
  destruct (T (main_cmd v) s) as [msg ->]. exact IH.
Qed.

(** X8. When the external program cannot be started at all, on a
    console that shows everything and a host that refuses no [stat], a
    run whose reset completes still returns with status 0 after
    attempting every candidate, and leaves the file system as the reset
    left it: the output directory holds what a failed deletion left in
    it, and nothing else. *)
Theorem run_without_tool (host : Host) (s : node) :
  shows_everything host -> stat_allowed host ->
  (forall argv s0, exists msg, run_process host argv s0 = SpawnFailed msg) ->
  reset_completes host s = true ->
  res (main host s) = Ok tt /\
  exit_status (res (main host s)) = Some 0%Z /\
  spawned (events (main host s)) = map main_cmd (video_files s) /\
  fs_after (main host s) = fs_after (reset host s) /\
  lookup output_dir (fs_after (main host s)) =
    Some (Dir match lookup output_dir s with
              | Some (Dir children) =>
                  match rmtree_fault host output_dir children with
                  | Some (_, remaining) => remaining
                  | None => []
                  end
              | _ => []
              end).
Proof.
  intros C St T Rc. destruct (reset_ok host C s Rc) as [_ L].
  rewrite (stale_run host s (St _ _)) in L.
  assert (X : tool_exits host).
  { intros argv s0. destruct (T argv s0) as [msg ->]. discriminate. }
  assert (D : stderr_decodable host).
  { intros argv s0 rc out err s' H. destruct (T argv s0) as [msg E].
    rewrite E in H. discriminate. }
  pose proof (main_completes host s C St X D Rc) as R.
  pose proof (main_fs host s R) as F. rewrite tool_runs_without_tool in F by exact T.
  split; [exact R|]. split; [now rewrite R|].
  split; [|split; [exact F | now rewrite F]].
  pose proof (main_spawned host s) as M. now rewrite R in M.
Qed.

Lemma run_without_tool_witness :
  let host := no_tool_host in
  let s := tree [("a.mp4", video "a"); ("b.mov", video "b");
                 ("thumbnails", Dir [("stale_thumbnail.jpg", video "old")])] in
  (shows_everything host /\ stat_allowed host /\
   (forall argv s0, exists msg, run_process host argv s0 = SpawnFailed msg) /\
   reset_completes host s = true) /\
  (res (main host s) = Ok tt /\
   exit_status (res (main host s)) = Some 0%Z /\
   spawned (events (main host s)) = map main_cmd (video_files s) /\
   fs_after (main host s) = fs_after (reset host s) /\
   lookup output_dir (fs_after (main host s)) =
     Some (Dir match lookup output_dir s with
               | Some (Dir children) =>
                   match rmtree_fault host output_dir children with
                   | Some (_, remaining) => remaining
                   | None => []
                   end
               | _ => []
               end)) /\
  lookup output_dir (fs_after (main host s)) = Some (Dir []).
Proof.
  cbv zeta. split; [|split; [|reflexivity]].
  - split; [apply host_running_shows_everything|].
    split; [apply host_running_stat_allowed|].
    split; [intros; now eexists | reflexivity].
  - apply (run_without_tool no_tool_host).
    + apply host_running_shows_everything.
    + apply host_running_stat_allowed.
    + intros; now eexists.
    + reflexivity.
Defined.

Lemma ascii_only_valid (b : bytes) : ascii_only b = true -> utf8_valid b = true.
Proof.
  induction b as [|x b IH]; [reflexivity|]. unfold ascii_only. cbn [forallb].
  intros H. apply andb_true_iff in H as [X H]. cbn [utf8_valid].
  replace (in_range 0 127 x) with true; [now apply IH|].
  symmetry. unfold in_range. apply N.ltb_lt in X.
  apply andb_true_iff. split; apply N.leb_le; lia.
Qed.

(** X9. On a console that shows everything, an extraction whose
    external program exits with only ASCII diagnostics returns, whatever
    the exit status: after the line that announces it and the start of
    the program it prints the success line, or the error line and the
    diagnostics, and the file system is as the program left it. *)
Theorem ascii_diagnostics_return
  (host : Host) (video_path out : path) (timestamp : option string)
  (s s' : node) (returncode : Z) (stdout stderr : bytes) :
  shows_everything host ->
  run_process host
    (cmd video_path out
       (match timestamp with Some t => t | None => default_timestamp end)) s =
    Exited returncode stdout stderr s' ->
  ascii_only stderr = true ->
  generate_thumbnail host video_path out timestamp s =
    (Ok tt, s',
     [ EvPrint (fstr [LF; "Processing "; Path_name video_path; "..."]);
       EvSpawn (cmd video_path out
                  (match timestamp with Some t => t | None => default_timestamp end));
       EvPrint (if (returncode =? 0)%Z
                then fstr ["✅ Generated thumbnail: ";
                           Path_str (thumbnail_path video_path out)]
                else fstr ["❌ Error processing "; Path_name video_path; ":"]) ] ++
     if (returncode =? 0)%Z then [] else [EvPrint (string_of_list_byte stderr)]).
Proof.
  intros C R A. rewrite generate_thumbnail_run. cbv zeta. rewrite R.
  rewrite !(shows_everything_accepted host _ C).
  rewrite (ascii_only_valid _ A). now destruct (returncode =? 0)%Z.
Qed.

Lemma ascii_diagnostics_return_witness :
  let v := joinpath video_dir "broken.mp4" in
  let s := tree [("broken.mp4", File []); ("thumbnails", Dir [])] in
  let err := list_byte_of_string
    "/Users/Shared/Aerial Local/Additional Videos/broken.mp4: Invalid data found when processing input" in
  (shows_everything plain_host /\
   run_process plain_host (cmd v output_dir default_timestamp) s =
     Exited 1 [] err s /\ ascii_only err = true) /\
  res (generate_thumbnail plain_host v output_dir None s) = Ok tt.
Proof.
  cbv zeta. split; [split; [apply host_running_shows_everything
                           |split; reflexivity]|].
  rewrite (ascii_diagnostics_return plain_host
             (joinpath video_dir "broken.mp4") output_dir None
             (tree [("broken.mp4", File []); ("thumbnails", Dir [])]) _ 1 [] _
             (host_running_shows_everything _) eq_refl eq_refl).
  reflexivity.
Defined.

(** ** The candidates *)

(** X10. In a video directory whose entries have distinct names, no
    candidate is listed twice: no name is matched by both patterns, and
    no file is processed twice in one run. *)
Theorem no_candidate_twice (s : node) (children : list (string * node)) :
  lookup video_dir s = Some (Dir children) ->
  NoDup (map fst children) ->
  NoDup (video_files s) /\
  forall name, ~ (fnmatch "*.mp4" name = true /\ fnmatch "*.mov" name = true).
Proof.
  intros L N.
  assert (X : forall name,
            ~ (fnmatch "*.mp4" name = true /\ fnmatch "*.mov" name = true)).
  { intros name [A B].
    apply (fnmatch_star_literal ".mp4") in A; [|reflexivity].
    apply (fnmatch_star_literal ".mov") in B; [|reflexivity].
    refine (ends_with_excl _ _ name _ _ A B); [reflexivity | discriminate]. }
  split; [|exact X]. unfold video_files, glob. rewrite L.
  assert (J : forall names, NoDup names -> NoDup (map (joinpath video_dir) names)).
  { intros names H. apply NoDup_map_NoDup_ForallPairs; [|exact H].
    intros a b _ _. apply joinpath_inj. }
  apply NoDup_app.
  - apply J. now apply NoDup_filter.
  - apply J. now apply NoDup_filter.
  - intros q Ia Ib.
    apply in_map_iff in Ia as (a & <- & Ia). apply in_map_iff in Ib as (b & E & Ib).
    apply joinpath_inj in E. subst b.
    apply filter_In in Ia as [_ Fa]. apply filter_In in Ib as [_ Fb].
    now apply (X a).
Qed.

Lemma no_candidate_twice_witness :
  let entries := [("clip.mov", video "mov"); ("clip.mp4", video "mp4");
                  ("thumbnails", Dir [])] in
  (lookup video_dir (tree entries) = Some (Dir entries) /\
   NoDup (map fst entries)) /\
  NoDup (video_files (tree entries)).
Proof.
  cbv zeta.
  assert (N : NoDup ["clip.mov"; "clip.mp4"; "thumbnails"]).
  { repeat constructor; cbn; intuition discriminate. }
  split; [split; [reflexivity | exact N]|].
  apply (no_candidate_twice
           (tree [("clip.mov", video "mov"); ("clip.mp4", video "mp4");
                  ("thumbnails", Dir [])])
           [("clip.mov", video "mov"); ("clip.mp4", video "mp4");
            ("thumbnails", Dir [])] eq_refl N).
Defined.

(** ** Exceptions that leave an extraction *)

(** X12. On a console that shows everything, a failed extraction whose
    diagnostics do not decode raises out of [generate_thumbnail],
    whatever the host, the video and the exit status: the handler of
    [CalledProcessError] calls [decode], and no handler covers the
    handler. *)
Theorem undecodable_diagnostics_escape (host : Host) (video_path out : path)
  (timestamp : option string) (s s' : node)
  (returncode : Z) (stdout stderr : bytes) :
  shows_everything host ->
  run_process host
    (cmd video_path out
       (match timestamp with Some t => t | None => default_timestamp end)) s =
    Exited returncode stdout stderr s' ->
  returncode <> 0%Z ->
  utf8_valid stderr = false ->
  generate_thumbnail host video_path out timestamp s =
    (Raise (UnicodeDecodeError "'utf-8' codec can't decode bytes"), s',
     [ EvPrint (fstr [LF; "Processing "; Path_name video_path; "..."]);
       EvSpawn (cmd video_path out
                  (match timestamp with Some t => t | None => default_timestamp end));
       EvPrint (fstr ["❌ Error processing "; Path_name video_path; ":"]) ]).
Proof.
  intros C R N U. rewrite generate_thumbnail_run. cbv zeta. rewrite R.
  rewrite !(shows_everything_accepted host _ C).
  apply Z.eqb_neq in N. now rewrite N, U.
Qed.

Lemma undecodable_diagnostics_escape_witness :
  let v := joinpath video_dir "clip.mp4" in
  let s := tree [("clip.mp4", video "clip"); ("thumbnails", Dir [])] in
  let err := list_byte_of_string "Fichier endommag" ++ ["233"%byte] in
  (shows_everything latin1_host /\
   run_process latin1_host (cmd v output_dir default_timestamp) s =
     Exited 1 [] err s /\
   1%Z <> 0%Z /\ utf8_valid err = false) /\
  generate_thumbnail latin1_host v output_dir None s =
    (Raise (UnicodeDecodeError "'utf-8' codec can't decode bytes"), s,
     [ EvPrint (fstr [LF; "Processing "; Path_name v; "..."]);
       EvSpawn (cmd v output_dir default_timestamp);
       EvPrint (fstr ["❌ Error processing "; Path_name v; ":"]) ]).
Proof.
  cbv zeta.
  split; [split; [apply host_running_shows_everything
                 |split; [reflexivity | split; [discriminate | reflexivity]]]|].
  apply (undecodable_diagnostics_escape latin1_host
           (joinpath video_dir "clip.mp4") output_dir None
           (tree [("clip.mp4", video "clip"); ("thumbnails", Dir [])])
           (tree [("clip.mp4", video "clip"); ("thumbnails", Dir [])])
           1 [] (list_byte_of_string "Fichier endommag" ++ ["233"%byte]));
    [apply host_running_shows_everything | reflexivity | discriminate
    | reflexivity].
Defined.


